(** * Event-sourced aggregate root and its test toolkit

    A shallow embedding of [aggregate.ts] (class [AggregateRoot]) and of
    [utils/test-toolkit.ts] (the [check] assertion chain), with the
    properties of the specification stated over it.

    JavaScript objects are mutable and may raise: every method is a
    computation in a state-and-exception monad [M S A] over the object it
    mutates.  Plain objects used as records (the fields of an event, the
    projected state) are finite maps from property names to values. *)

From Stdlib Require Import ZArith Lia Ascii String List Bool DecimalString.
From stdpp Require Import base option list gmap strings.

Import ListNotations.
Set Warnings "-register-all".
Local Open Scope string_scope.
Local Open Scope list_scope.

(** ** JavaScript values *)

(** The property values the engine and the toolkit look at.  Numbers are
    the integral ones; an object other than an array is a reference, and
    [===] on references compares identity.  The objects every instance
    reaches through its prototype chain (its class, the prototype of the
    class, the methods of [Object.prototype]) are known by their path. *)
Inductive Value : Type :=
| VUndefined
| VNull
| VBool (b : bool)
| VNum (n : Z)
| VStr (s : string)
| VArr (items : list Value)
| VObj (ref : nat)
| VBuiltin (path : string).

(** [Array.isArray(v)]. *)
Definition isArray (v : Value) : bool :=
  match v with VArr _ => true | _ => false end.

(** [a === b] for two values that are not both arrays (the toolkit never
    compares two arrays with [===]; an array against anything else is
    unequal). *)
Definition strict_eq (a b : Value) : bool :=
  match a, b with
  | VUndefined, VUndefined => true
  | VNull, VNull => true
  | VBool x, VBool y => Bool.eqb x y
  | VNum x, VNum y => Z.eqb x y
  | VStr x, VStr y => String.eqb x y
  | VObj x, VObj y => Nat.eqb x y
  | VBuiltin x, VBuiltin y => String.eqb x y
  | _, _ => false
  end.

(** What a [throw] carries: an [Error] object with its message (and the
    [actual]/[expected] properties the toolkit attaches to its assertion
    errors), or any other value. *)
Record Error : Type := mkError {
  message : string;
  actual : option string;
  expected : option string;
}.

Inductive Thrown : Type :=
| ErrorObject (e : Error)
| NonError (v : Value).

(** [new Error(msg)]. *)
Definition new_Error (msg : string) : Error :=
  {| message := msg; actual := None; expected := None |}.

(** ** State and exceptions *)

Inductive result (A : Type) : Type :=
| Ok (a : A)
| Throw (t : Thrown).
Arguments Ok {A} a.
Arguments Throw {A} t.

Definition M (S A : Type) : Type := S -> result A * S.

Definition ret {S A} (a : A) : M S A := fun s => (Ok a, s).

Definition bind {S A B} (c : M S A) (k : A -> M S B) : M S B :=
  fun s => match c s with
           | (Ok a, s') => k a s'
           | (Throw t, s') => (Throw t, s')
           end.

Definition throw {S A} (t : Thrown) : M S A := fun s => (Throw t, s).

Definition gets {S A} (f : S -> A) : M S A := fun s => (Ok (f s), s).

Definition modify {S} (f : S -> S) : M S unit := fun s => (Ok tt, f s).

(** Run a computation on a component of the state. *)
Definition zoom {S T A} (get : S -> T) (set : T -> S -> S) (c : M T A) : M S A :=
  fun s => let (r, t') := c (get s) in (r, set t' s).

(** [try { c } catch (error) { h error }]. *)
Definition try_catch {S A} (c : M S A) (h : Thrown -> M S A) : M S A :=
  fun s => match c s with
           | (Ok a, s') => (Ok a, s')
           | (Throw t, s') => h t s'
           end.

Declare Scope js_scope.
Delimit Scope js_scope with js.
Notation "'let*' x ':=' c 'in' k" := (bind c (fun x => k))
  (at level 10, x name, c at level 100, k at level 200) : js_scope.
Notation "c '>>' k" := (bind c (fun _ => k))
  (at level 65, right associativity) : js_scope.
Local Open Scope js_scope.

(** [list.forEach(f)]: the callbacks run in order; a raise unwinds the
    loop. *)
Fixpoint forEach {S A} (l : list A) (f : A -> M S unit) : M S unit :=
  match l with
  | [] => ret tt
  | x :: l' => f x >> forEach l' f
  end.

(** [if (c) { body }]. *)
Definition when_ {S} (c : bool) (body : M S unit) : M S unit :=
  if c then body else ret tt.

(** ** Events *)

(** An event is an instance of a named class that declares data only
    (as the events of the tests and of the README do): [proto_name] is
    [Object.getPrototypeOf(event).constructor.name], [fields] its own
    properties.  Classes are told apart by their names, as the toolkit
    tells them apart. *)
Record Event : Type := mkEvent {
  proto_name : string;
  fields : gmap string Value;
}.

(** The property names every object inherits from [Object.prototype]. *)
Definition Object_prototype_names : list string :=
  ["constructor"; "__defineGetter__"; "__defineSetter__"; "hasOwnProperty";
   "__lookupGetter__"; "__lookupSetter__"; "isPrototypeOf";
   "propertyIsEnumerable"; "toString"; "valueOf"; "__proto__";
   "toLocaleString"]%string.

(** What [event[prop]] finds along the prototype chain when the event has
    no own property [prop]: the class under [constructor], the prototype
    of the class under [__proto__], the methods of [Object.prototype]
    under their names, and nothing ([undefined]) under any other name. *)
Definition inherited (e : Event) (prop : string) : Value :=
  if String.eqb prop "constructor" then VBuiltin (proto_name e)
  else if String.eqb prop "__proto__" then VBuiltin (proto_name e ++ ".prototype")%string
  else if existsb (String.eqb prop) Object_prototype_names
       then VBuiltin ("Object.prototype." ++ prop)%string
  else VUndefined.

(** [event[prop]]: the own property, or else what the prototype chain
    holds under that name. *)
Definition prop_of (e : Event) (prop : string) : Value :=
  match fields e !! prop with
  | Some v => v
  | None => inherited e prop
  end.

Record INodeMetadata : Type := mkMeta {
  meta_id : string;
  meta_index : Z;
}.

Record IEventNode : Type := mkNode {
  event_of : Event;
  metadata : INodeMetadata;
}.

(** ** The aggregate root *)

Module AggregateRoot.

(** A function value is held by reference. *)
Definition Reference : Type := nat.

(** The instance: the three buffers held under module-private symbols, the
    failure-handler slot and the projected state. *)
Record Aggregate : Type := mkAggregate {
  id : string;
  INTERNAL_EVENTS : list Event;
  INTERNAL_EVENTS_HISTORY : list Event;
  INTERNAL_EVENTS_NODES_HISTORY : list IEventNode;
  FAILURE_HANDLER : option Reference;
  state : gmap string Value;
}.

Definition set_INTERNAL_EVENTS (l : list Event) (a : Aggregate) : Aggregate :=
  {| id := id a; INTERNAL_EVENTS := l;
     INTERNAL_EVENTS_HISTORY := INTERNAL_EVENTS_HISTORY a;
     INTERNAL_EVENTS_NODES_HISTORY := INTERNAL_EVENTS_NODES_HISTORY a;
     FAILURE_HANDLER := FAILURE_HANDLER a; state := state a |}.

Definition set_INTERNAL_EVENTS_HISTORY (l : list Event) (a : Aggregate) : Aggregate :=
  {| id := id a; INTERNAL_EVENTS := INTERNAL_EVENTS a;
     INTERNAL_EVENTS_HISTORY := l;
     INTERNAL_EVENTS_NODES_HISTORY := INTERNAL_EVENTS_NODES_HISTORY a;
     FAILURE_HANDLER := FAILURE_HANDLER a; state := state a |}.

Definition set_INTERNAL_EVENTS_NODES_HISTORY (l : list IEventNode) (a : Aggregate) : Aggregate :=
  {| id := id a; INTERNAL_EVENTS := INTERNAL_EVENTS a;
     INTERNAL_EVENTS_HISTORY := INTERNAL_EVENTS_HISTORY a;
     INTERNAL_EVENTS_NODES_HISTORY := l;
     FAILURE_HANDLER := FAILURE_HANDLER a; state := state a |}.

Definition set_FAILURE_HANDLER (h : option Reference) (a : Aggregate) : Aggregate :=
  {| id := id a; INTERNAL_EVENTS := INTERNAL_EVENTS a;
     INTERNAL_EVENTS_HISTORY := INTERNAL_EVENTS_HISTORY a;
     INTERNAL_EVENTS_NODES_HISTORY := INTERNAL_EVENTS_NODES_HISTORY a;
     FAILURE_HANDLER := h; state := state a |}.

Definition set_state (m : gmap string Value) (a : Aggregate) : Aggregate :=
  {| id := id a; INTERNAL_EVENTS := INTERNAL_EVENTS a;
     INTERNAL_EVENTS_HISTORY := INTERNAL_EVENTS_HISTORY a;
     INTERNAL_EVENTS_NODES_HISTORY := INTERNAL_EVENTS_NODES_HISTORY a;
     FAILURE_HANDLER := FAILURE_HANDLER a; state := m |}.

(** [new AggregateRoot(id)]. *)
Definition new_AggregateRoot (aggregateId : string) : Aggregate :=
  {| id := aggregateId; INTERNAL_EVENTS := []; INTERNAL_EVENTS_HISTORY := [];
     INTERNAL_EVENTS_NODES_HISTORY := []; FAILURE_HANDLER := None; state := ∅ |}.

(** [IAggregateFailureHandler = (error: Error) => void]: a closure of the
    caller's.  It is handed the error; it may hold the aggregate (the
    loader of the README closes over it), so it may read and change it; it
    returns or raises. *)
Definition IAggregateFailureHandler : Type := Thrown -> M Aggregate unit.

(** The function each reference denotes. *)
Definition Closures : Type := Reference -> IAggregateFailureHandler.

(** A method a subclass declares and the engine may call as a handler: it
    runs with [this] bound to the aggregate and the event as its argument. *)
Definition EventHandler : Type := Event -> M Aggregate unit.

(** What [this[name]] may be for a property a subclass adds: a method, or a
    property holding something that is not callable. *)
Inductive Member : Type :=
| Method (h : EventHandler)
| Field (v : Value).

(** The members a subclass adds to [AggregateRoot], by property name. *)
Definition Members : Type := string -> option Member.

(** The running object: the instance, and a ghost record [calls] of every
    handler invocation the engine made (handler name and argument), which
    no code reads. *)
Record Instance : Type := mkInstance {
  this : Aggregate;
  calls : list (string * Event);
}.

Definition set_this (a : Aggregate) (w : Instance) : Instance :=
  {| this := a; calls := calls w |}.

Definition log_call (name : string) (e : Event) (w : Instance) : Instance :=
  {| this := this w; calls := calls w ++ [(name, e)] |}.

Definition on_this (f : Aggregate -> Aggregate) (w : Instance) : Instance :=
  set_this (f (this w)) w.

Section Engine.

Variable members : Members.
Variable closures : Closures.

Definition getState : M Instance (gmap string Value) :=
  gets (fun w => state (this w)).

Definition commit : M Instance unit :=
  modify (on_this (set_INTERNAL_EVENTS [])).

Definition uncommit : M Instance unit :=
  modify (on_this (set_INTERNAL_EVENTS [])).

Definition getUncommittedEvents : M Instance (list Event) :=
  gets (fun w => INTERNAL_EVENTS (this w)).

Definition getLoadedEvents : M Instance (list Event) :=
  gets (fun w => INTERNAL_EVENTS_HISTORY (this w)).

Definition getLoadedEventNodes : M Instance (list IEventNode) :=
  gets (fun w => INTERNAL_EVENTS_NODES_HISTORY (this w)).

Definition getEventName (event : Event) : string := proto_name event.

(** The handler name and, when [this[handler]] is a function, the method. *)
Definition getEventHandler (event : Event) : option (string * EventHandler) :=
  let handler := ("on" ++ getEventName event)%string in
  match members handler with
  | Some (Method method) => Some (handler, method)
  | _ => None
  end.

(** [handler.call(this, event)]. *)
Definition call_handler (h : string * EventHandler) (event : Event) : M Instance unit :=
  modify (log_call (fst h) event) >> zoom this set_this (snd h event).

Definition apply (event : Event) (isFromHistory : bool) : M Instance unit :=
  when_ (negb isFromHistory)
    (modify (on_this (fun a => set_INTERNAL_EVENTS (INTERNAL_EVENTS a ++ [event]) a))) >>
  match getEventHandler event with
  | Some handler => call_handler handler event
  | None => ret tt
  end.

Definition loadFromHistory (history : list Event) : M Instance unit :=
  forEach history (fun event =>
    apply event true >>
    modify (on_this (fun a =>
      set_INTERNAL_EVENTS_HISTORY (INTERNAL_EVENTS_HISTORY a ++ [event]) a))).

Definition loadFromEventNodes (nodes : list IEventNode) : M Instance unit :=
  forEach nodes (fun node =>
    apply (event_of node) true >>
    modify (on_this (fun a =>
      set_INTERNAL_EVENTS_NODES_HISTORY (INTERNAL_EVENTS_NODES_HISTORY a ++ [node]) a))) >>
  let events := map event_of nodes in
  loadFromHistory events.

Definition snapshot : M Instance (option Event) := ret None.

Definition setFailureHandler (handler : Reference) : M Instance unit :=
  modify (on_this (set_FAILURE_HANDLER (Some handler))).

Definition fail (error : Thrown) : M Instance unit :=
  fun w => match FAILURE_HANDLER (this w) with
           | Some handler => zoom this set_this (closures handler error) w
           | None => (Throw error, w)
           end.

End Engine.

End AggregateRoot.

(** ** Strings and numbers of the runtime *)

Definition nl : string := String (ascii_of_nat 10) EmptyString.

(** A value in a condition: the empty string is falsy. *)
Definition truthy (s : string) : bool :=
  match s with EmptyString => false | _ => true end.

(** [`${n}`] for a count of events, which is below the longest array
    ([2 ^ 32] items) and so printed in digits. *)
Definition nat_to_string (n : nat) : string :=
  NilZero.string_of_uint (Nat.to_uint n).

(** [`${n}`] for an integer below [10 ^ 21] in absolute value, which the
    runtime prints digit by digit (from there on it prints an exponent);
    what is stated of this text is stated within that bound. *)
Definition Z_to_string (z : Z) : string :=
  NilZero.string_of_int (Z.to_int z).

Definition lower_ascii (c : ascii) : ascii :=
  let n := nat_of_ascii c in
  if (65 <=? n)%nat && (n <=? 90)%nat then ascii_of_nat (n + 32) else c.

(** [s.toLowerCase()] for a string of ASCII characters, of which the
    runtime folds the letters A to Z and no other; what is stated of the
    folded text is stated of such strings. *)
Fixpoint toLowerCase (s : string) : string :=
  match s with
  | EmptyString => EmptyString
  | String c s' => String (lower_ascii c) (toLowerCase s')
  end.


(** [s.includes(t)]: [t] occurs in [s] as a contiguous run. *)
Fixpoint String_includes (s t : string) : bool :=
  String.prefix t s ||
  match s with
  | EmptyString => false
  | String _ s' => String_includes s' t
  end.

(** [list.includes(key)] on an array of strings. *)
Definition Array_includes (l : list string) (key : string) : bool :=
  existsb (String.eqb key) l.

(** [list.join(sep)]. *)
Definition join (sep : string) (l : list string) : string := String.concat sep l.

(** ** Promises of a sequential run *)

(** The settled state of a promise.  Nothing else runs between a
    suspension and its resumption here, so a promise is known by how it
    settles. *)
Inductive Promise (A : Type) : Type :=
| Resolved (a : A)
| Rejected (t : Thrown).
Arguments Resolved {A} a.
Arguments Rejected {A} t.

(** The body of an [async] function: a raise inside it does not reach the
    caller, it rejects the promise the call returns. *)
Definition async {S A} (body : M S A) : M S (Promise A) :=
  fun s => match body s with
           | (Ok a, s') => (Ok (Resolved a), s')
           | (Throw t, s') => (Ok (Rejected t), s')
           end.

(** [await p]. *)
Definition await {S A} (p : Promise A) : M S A :=
  match p with
  | Resolved a => ret a
  | Rejected t => throw t
  end.

(** ** The test toolkit *)

Module Toolkit.

Import AggregateRoot.

(** The [colors] package: each function wraps a string in a colour. *)
Record Colors : Type := mkColors {
  red : string -> string;
  green : string -> string;
  cyan : string -> string;
  yellow : string -> string;
}.

(** A target of an expectation: an event class, known by its [name]. *)
Record EventClass : Type := mkEventClass {
  name : string;
}.

Definition WhenCallback : Type := M Instance unit.

(** [(aggregate) => Promise<void> | void]; a plain return is a resolved
    promise. *)
Definition AfterCallback : Type := M Instance (Promise unit).

Definition as_AfterCallback (fn : WhenCallback) : AfterCallback :=
  let* _ := fn in ret (Resolved tt).

Definition getEventClassName (event : EventClass) : string := name event.

Definition getEventProtoName (event : Event) : string := proto_name event.

Definition occurances (list : list string) (key : string) : nat :=
  fold_left (fun acc curr => acc + (if String.eqb curr key then 1 else 0)) list 0.

(** The closure of one [check(aggregate)] call, the aggregate it is bound
    to, and what [console.log] printed. *)
Record Check : Type := mkCheck {
  flags : list string;
  events : list EventClass;
  occuranceExpectation : Z;
  withMessage : option string;
  aggregate : Instance;
  console : list string;
}.

Definition set_flags (l : list string) (c : Check) : Check :=
  {| flags := l; events := events c; occuranceExpectation := occuranceExpectation c;
     withMessage := withMessage c; aggregate := aggregate c; console := console c |}.

Definition set_events (l : list EventClass) (c : Check) : Check :=
  {| flags := flags c; events := l; occuranceExpectation := occuranceExpectation c;
     withMessage := withMessage c; aggregate := aggregate c; console := console c |}.

Definition set_occuranceExpectation (n : Z) (c : Check) : Check :=
  {| flags := flags c; events := events c; occuranceExpectation := n;
     withMessage := withMessage c; aggregate := aggregate c; console := console c |}.

Definition set_withMessage (m : option string) (c : Check) : Check :=
  {| flags := flags c; events := events c; occuranceExpectation := occuranceExpectation c;
     withMessage := m; aggregate := aggregate c; console := console c |}.

Definition set_aggregate (w : Instance) (c : Check) : Check :=
  {| flags := flags c; events := events c; occuranceExpectation := occuranceExpectation c;
     withMessage := withMessage c; aggregate := w; console := console c |}.

Definition console_log (line : string) (c : Check) : Check :=
  {| flags := flags c; events := events c; occuranceExpectation := occuranceExpectation c;
     withMessage := withMessage c; aggregate := aggregate c; console := console c ++ [line] |}.

Definition push_flag (f : string) : M Check unit :=
  modify (fun c => set_flags (flags c ++ [f]) c).

(** A call on the bound aggregate. *)
Definition on_aggregate {A} (c : M Instance A) : M Check A :=
  zoom aggregate set_aggregate c.

(** [params[prop]] for an object literal given as its entries in order. *)
Definition param_of (params : list (string * Value)) (prop : string) : Value :=
  default VUndefined (snd <$> find (fun kv => String.eqb (fst kv) prop) params).

(** [Object.getPrototypeOf(undefined)] raises. *)
Definition TypeError_undefined : Thrown :=
  ErrorObject (new_Error "Cannot convert undefined or null to object").

Section Chain.

Variable colors : Colors.
(** [JSON.stringify(event, null, 2)]. *)
Variable JSON_stringify : Event -> string.
(** [`${v}`] for a property value. *)
Variable String_ : Value -> string.
(** [expect(ref).to.contain(values)] of [@hapi/code] holds. *)
Variable contain : list Value -> list Value -> bool.
(** The members of the aggregate's class. *)
Variable members : Members.

Definition throwError {A} (message actual expected : string) : M Check A :=
  let msg := red colors message in
  let ex := if truthy expected then green colors ("Expected: " ++ expected)%string else ""%string in
  let ac := if truthy expected then red colors ("Received: " ++ actual)%string else ""%string in
  let errorMessage := (msg ++ nl ++ nl ++ "  " ++ ex ++ nl ++ "  " ++ ac ++ nl)%string in
  throw (ErrorObject {| message := errorMessage;
                        actual := Some actual; expected := Some expected |}).

(** [check(aggregate)]: the fresh closure. *)
Definition check (aggregate : Instance) (out : list string) : Check :=
  {| flags := []; events := []; occuranceExpectation := (-1)%Z;
     withMessage := None; aggregate := aggregate; console := out |}.

Definition addEvents (event : EventClass + list EventClass) : M Check unit :=
  modify (set_events (match event with inl e => [e] | inr l => l end)).

Definition debug_output (uncommittedEvents : list Event) (targets : list EventClass) : string :=
  let aggregateStream :=
    join nl (imap (fun index uncommittedEvent =>
      ("- [" ++ nat_to_string index ++ "] " ++ getEventProtoName uncommittedEvent
        ++ " " ++ JSON_stringify uncommittedEvent)%string) uncommittedEvents) in
  let eventStream :=
    join nl (imap (fun index event =>
      ("- [" ++ nat_to_string index ++ "] " ++ getEventClassName event)%string) targets) in
  (green colors (nl ++ "DEBUG:")
   ++ cyan colors (nl ++ nl ++ "Aggregate events:")
   ++ cyan colors (nl ++ nl ++ aggregateStream)
   ++ yellow colors (nl ++ nl ++ "Target events:")
   ++ yellow colors (nl ++ nl ++ eventStream))%string.

Definition assertEvent : M Check unit :=
  let* uncommittedEvents := on_aggregate getUncommittedEvents in
  let uncommittedEventNames := map getEventProtoName uncommittedEvents in
  let* flags := gets flags in
  let* events := gets events in
  let* occuranceExpectation := gets occuranceExpectation in
  when_ (Array_includes flags "debug")
    (modify (console_log (debug_output uncommittedEvents events))) >>
  when_ (Nat.eqb (length uncommittedEvents) 0)
    (throwError "There are no events in the aggregate event stream to evaluate."
       (nat_to_string (length uncommittedEvents)) "1 or more") >>
  if Array_includes flags "excludes" then
    forEach events (fun event =>
      let eventName := getEventClassName event in
      let occuredCount := occurances uncommittedEventNames eventName in
      when_ (negb (Nat.eqb occuredCount 0))
        (throwError ("Event '" ++ eventName ++ "' was found in the aggregate event stream.")
           (nat_to_string occuredCount) "0"))
  else
  when_ (Array_includes flags "exactly")
    (forEach events (fun event =>
      let eventName := getEventClassName event in
      let eventCount := occurances uncommittedEventNames eventName in
      when_ (negb (Z.eqb (Z.of_nat eventCount) occuranceExpectation))
        (throwError ("Event '" ++ eventName
                     ++ "' did not match exact event count in the aggregate stream.")
           (nat_to_string eventCount) (Z_to_string occuranceExpectation)))) >>
  when_ (Array_includes flags "one")
    (forEach events (fun event =>
      let eventName := getEventClassName event in
      let eventCount := occurances uncommittedEventNames eventName in
      when_ (eventCount <? 1)%nat
        (throwError ("Event '" ++ eventName
                     ++ "' was not found in the aggregate event stream.")
           (nat_to_string eventCount) "1") >>
      when_ (1 <? eventCount)%nat
        (throwError ("Event '" ++ eventName
                     ++ "' occurs more than once in the aggregate event stream.")
           (nat_to_string eventCount) "1"))) >>
  when_ (Array_includes flags "first")
    (match head uncommittedEvents with
     | None => throw TypeError_undefined
     | Some firstUncommittedEvent =>
       let firstUncommittedEventName := getEventProtoName firstUncommittedEvent in
       forEach events (fun event =>
         let eventName := getEventClassName event in
         when_ (negb (String.eqb firstUncommittedEventName eventName))
           (throwError ("Event '" ++ eventName
                        ++ "' is not the first event in the aggregate event stream.")
              eventName firstUncommittedEventName))
     end) >>
  when_ (Array_includes flags "last")
    (match last uncommittedEvents with
     | None => throw TypeError_undefined
     | Some lastUncommittedEvent =>
       let lastUncommittedEventName := getEventProtoName lastUncommittedEvent in
       forEach events (fun event =>
         let eventName := getEventClassName event in
         when_ (negb (String.eqb lastUncommittedEventName eventName))
           (throwError ("Event '" ++ eventName
                        ++ "' is not the last event in the aggregate event stream.")
              eventName lastUncommittedEventName))
     end) >>
  when_ (Array_includes flags "has" && negb (Array_includes flags "one")
         && negb (Array_includes flags "exactly"))
    (forEach events (fun event =>
      let eventName := getEventClassName event in
      let eventCount := occurances uncommittedEventNames eventName in
      when_ (Nat.eqb eventCount 0)
        (throwError ("Event '" ++ eventName
                     ++ "' did not match any events in the aggregate stream.") "" ""))).

(** One property of [params] against one uncommitted event: the two
    branches of the body of [Object.keys(params).forEach]. *)
Definition assertProp (mismatch : string) (event : Event)
    (params : list (string * Value)) (prop : string) : M Check unit :=
  let mine := prop_of event prop in
  let theirs := param_of params prop in
  match mine, theirs with
  | VArr have, VArr want =>
    when_ (negb (contain have want))
      (throwError ("No property '" ++ prop ++ "' does not match required list")
         (prop ++ " - " ++ String_ mine) (prop ++ " - " ++ String_ theirs))
  | _, _ =>
    when_ (negb (strict_eq mine theirs))
      (throwError mismatch
         (prop ++ " - " ++ String_ mine) (prop ++ " - " ++ String_ theirs))
  end.

Definition assertEventParams (params : list (string * Value)) : M Check unit :=
  let* events := gets events in
  let* flags := gets flags in
  when_ (Nat.eqb (length events) 0)
    (throwError "No events listed - cannot assert event includes params" "" "") >>
  let* uncommittedEvents := on_aggregate getUncommittedEvents in
  if Array_includes flags "last" then
    match last events with
    | None => throw TypeError_undefined
    | Some target =>
      let eventName := getEventClassName target in
      match last uncommittedEvents with
      | None => throw TypeError_undefined
      | Some lastUncommittedEvent =>
        let lastUncommittedEventName := getEventProtoName lastUncommittedEvent in
        forEach (map fst params) (fun prop =>
          assertProp
            ("No matching property found on last event '" ++ eventName
             ++ "' for property '" ++ prop ++ "' with last aggregate event '"
             ++ lastUncommittedEventName ++ "'")
            lastUncommittedEvent params prop)
      end
    end
  else
    forEach events (fun event =>
      let eventName := getEventClassName event in
      forEach uncommittedEvents (fun uncommittedEvent =>
        let lastUncommittedEventName := getEventProtoName uncommittedEvent in
        when_ (String.eqb eventName lastUncommittedEventName)
          (forEach (map fst params) (fun prop =>
             assertProp
               ("No matching property found on event '" ++ eventName
                ++ "' for property '" ++ prop ++ "'")
               uncommittedEvent params prop)))).

(** [assertWhen] is an [async] function: the call returns a promise, and
    whatever its body raises settles that promise as rejected. *)
Definition assertWhen (fn : AfterCallback) (async_ : bool) : M Check (Promise unit) :=
  async (
    let* flags := gets flags in
    if Array_includes flags "throws" then
      let* didThrow :=
        try_catch
          ((if async_
            then (let* pending := on_aggregate fn in await pending)
            else (let* _ := on_aggregate fn in ret tt)) >>
           ret false)
          (fun error =>
             let errMessage :=
               match error with ErrorObject e => message e | NonError _ => ""%string end in
             let left := toLowerCase errMessage in
             let* withMessage := gets withMessage in
             match withMessage with
             | Some expectedText =>
               let right := toLowerCase expectedText in
               when_ (truthy expectedText && negb (String_includes left right))
                 (throwError "Expected error message did not match"
                    errMessage expectedText)
             | None => ret tt
             end >>
             ret true) in
      when_ (negb didThrow)
        (throwError "Failed to throw error for aggregate method" "" "")
    else if async_
    then (let* pending := on_aggregate fn in await pending)
    else (let* _ := on_aggregate fn in ret tt)).

(** *** The chain object.  Every operation that returns [api] is a step on
    the closure; [and] answers a fresh closure on the same aggregate. *)

Definition loads (eventStream : list Event) : M Check unit :=
  on_aggregate (loadFromHistory members eventStream).

(** The promise [assertWhen] returns is dropped. *)
Definition when (fn : WhenCallback) : M Check unit :=
  let* _ := assertWhen (as_AfterCallback fn) false in
  ret tt.

Definition after (fn : AfterCallback + list AfterCallback) : M Check (Promise unit) :=
  async (
    let fnList := match fn with inl f => [f] | inr l => l end in
    forEach fnList (fun func =>
      let* settled := assertWhen func true in await settled)).

Definition with_ (value : string) : M Check unit :=
  modify (set_withMessage (Some value)).

Definition event (e : EventClass) : M Check unit :=
  addEvents (inl e) >> assertEvent.

Definition events_ (es : EventClass + list EventClass) : M Check unit :=
  addEvents es >> assertEvent.

Definition includes (params : list (string * Value)) : M Check unit :=
  assertEventParams params.

Definition exactly (occurances : Z) : M Check unit :=
  push_flag "exactly" >> modify (set_occuranceExpectation occurances).

Definition getAggregate : M Check Instance := gets aggregate.

Definition debug : M Check unit := push_flag "debug".
Definition throws : M Check unit := push_flag "throws".
Definition has : M Check unit := push_flag "has".
Definition first : M Check unit := push_flag "first".
Definition last_ : M Check unit := push_flag "last".
Definition one : M Check unit := push_flag "one".
Definition excludes : M Check unit := push_flag "excludes".

Definition and_ : M Check unit :=
  modify (fun c => check (aggregate c) (console c)).

Definition that : M Check unit := ret tt.
Definition it : M Check unit := ret tt.

End Chain.

End Toolkit.

(** ** Vocabulary of the statements *)

Module Protocol.

Import AggregateRoot.

(** The instance with [event] pushed on the uncommitted buffer. *)
Definition recorded (event : Event) (w : Instance) : Instance :=
  on_this (fun a => set_INTERNAL_EVENTS (INTERNAL_EVENTS a ++ [event]) a) w.

(** The engine calling method [h], found under [name], on [event]: the
    call is noted, [h] runs on the instance as it stands, and its outcome
    is the outcome. *)
Definition invoke (name : string) (h : EventHandler) (event : Event)
    (w : Instance) : result unit * Instance :=
  let (r, a') := h event (this w) in
  (r, {| this := a'; calls := calls w ++ [(name, event)] |}).

(** The handler calls one replay pass over [events] makes: one per event
    whose [on]-prefixed name is a method of the class, in order. *)
Definition pass (members : Members) (events : list Event) : list (string * Event) :=
  omap (fun event =>
          match members (String.append "on" (proto_name event)) with
          | Some (Method _) => Some (String.append "on" (proto_name event), event)
          | _ => None
          end) events.

(** A computation after which the observation [g] of the state reads as
    before, whether it returned or raised. *)
Definition keeps {S X A} (g : S -> X) (c : M S A) : Prop :=
  forall s, g (snd (c s)) = g s.

(** The uncommitted buffer of the running object. *)
Definition uncommitted (w : Instance) : list Event := INTERNAL_EVENTS (this w).

(** The failure handler [f] called with [error] by the engine: it runs on
    the instance as it stands and its outcome is the outcome. *)
Definition handed (f : IAggregateFailureHandler) (error : Thrown)
    (w : Instance) : result unit * Instance :=
  let (r, a') := f error (this w) in
  (r, {| this := a'; calls := calls w |}).

(** A failure handler that leaves the uncommitted buffer as it found it. *)
Definition failure_keeps_uncommitted (f : IAggregateFailureHandler) : Prop :=
  forall error a, INTERNAL_EVENTS (snd (f error a)) = INTERNAL_EVENTS a.

Definition every_closure (P : IAggregateFailureHandler -> Prop)
    (closures : Closures) : Prop :=
  forall ref, P (closures ref).

(** A handler that leaves the uncommitted buffer as it found it. *)
Definition keeps_uncommitted (h : EventHandler) : Prop :=
  forall event a, INTERNAL_EVENTS (snd (h event a)) = INTERNAL_EVENTS a.

(** A handler that returns, and leaves the three buffers as it found
    them: it projects state. *)
Record projects_state (h : EventHandler) : Prop := {
  handler_returns : forall event a, fst (h event a) = Ok tt;
  handler_keeps_uncommitted : keeps_uncommitted h;
  handler_keeps_loaded : forall event a,
    INTERNAL_EVENTS_HISTORY (snd (h event a)) = INTERNAL_EVENTS_HISTORY a;
  handler_keeps_nodes : forall event a,
    INTERNAL_EVENTS_NODES_HISTORY (snd (h event a)) = INTERNAL_EVENTS_NODES_HISTORY a;
}.

Definition every_handler (P : EventHandler -> Prop) (members : Members) : Prop :=
  forall name h, members name = Some (Method h) -> P h.

(** The public operations of an aggregate. *)
Inductive Op : Type :=
| OpApply (event : Event) (isFromHistory : bool)
| OpCommit
| OpUncommit
| OpLoadFromHistory (history : list Event)
| OpLoadFromEventNodes (nodes : list IEventNode)
| OpSnapshot
| OpSetFailureHandler (handler : Reference)
| OpFail (error : Thrown)
| OpGetState
| OpGetUncommittedEvents
| OpGetLoadedEvents
| OpGetLoadedEventNodes.

(** One call; what it answers is dropped, whether it raised is kept. *)
Definition call (members : Members) (closures : Closures) (op : Op) : M Instance unit :=
  match op with
  | OpApply event isFromHistory => apply members event isFromHistory
  | OpCommit => commit
  | OpUncommit => uncommit
  | OpLoadFromHistory history => loadFromHistory members history
  | OpLoadFromEventNodes nodes => loadFromEventNodes members nodes
  | OpSnapshot => let* _ := snapshot in ret tt
  | OpSetFailureHandler handler => setFailureHandler handler
  | OpFail error => fail closures error
  | OpGetState => let* _ := getState in ret tt
  | OpGetUncommittedEvents => let* _ := getUncommittedEvents in ret tt
  | OpGetLoadedEvents => let* _ := getLoadedEvents in ret tt
  | OpGetLoadedEventNodes => let* _ := getLoadedEventNodes in ret tt
  end.

(** A caller making the calls one after the other, going on after a call
    that raised. *)
Definition session (members : Members) (closures : Closures) (ops : list Op)
    (w : Instance) : Instance :=
  fold_left (fun w op => snd (call members closures op w)) ops w.

(** What the invariant says a call does to the uncommitted buffer. *)
Definition buffer_after (op : Op) (buffer : list Event) : list Event :=
  match op with
  | OpApply event false => buffer ++ [event]
  | OpCommit | OpUncommit => []
  | _ => buffer
  end.

(** *** The aggregate of the test suite: [TestAggregate] with its
    [onCreated] handler, and a class with no handler at all. *)

Definition onCreated : EventHandler := fun event =>
  modify (fun a =>
    set_state (<["createdAt" := prop_of event "createdAt"]>
                 (<["id" := prop_of event "id"]> (state a))) a).

Definition TestAggregate : Members := fun name =>
  if String.eqb name "onCreated" then Some (Method onCreated) else None.

Definition plain_AggregateRoot : Members := fun _ => None.

Definition Created (id createdAt : string) : Event :=
  {| proto_name := "Created";
     fields := <["createdAt" := VStr createdAt]> (<["id" := VStr id]> ∅) |}.

Definition Updated : Event := {| proto_name := "Updated"; fields := ∅ |}.

Definition fresh (aggregateId : string) : Instance :=
  {| this := new_AggregateRoot aggregateId; calls := [] |}.

(** The failure handler of the loader service in the README: release the
    lock, then raise the error again. *)
Definition unlock_and_rethrow : IAggregateFailureHandler :=
  fun error => throw error.

(** A failure handler that only takes note. *)
Definition swallow : IAggregateFailureHandler :=
  fun _ => ret tt.

(** A failure handler that discards what is pending:
    [() => aggregate.uncommit()]. *)
Definition discard_pending : IAggregateFailureHandler :=
  fun _ => modify (set_INTERNAL_EVENTS []).

(** The closures of the examples, by reference. *)
Definition Loader : Closures := fun ref =>
  match ref with
  | 0 => unlock_and_rethrow
  | 1 => swallow
  | _ => discard_pending
  end.

(** The closures that return without touching the aggregate. *)
Definition Quiet : Closures := fun _ => swallow.

(** A handler that applies a further event, on a class with no handler
    for it: [onCreated() { this.apply(new Updated()) }]. *)
Definition onCreated_applies : EventHandler := fun _ =>
  modify (fun a => set_INTERNAL_EVENTS (INTERNAL_EVENTS a ++ [Updated]) a).

Definition Reacting : Members := fun name =>
  if String.eqb name "onCreated" then Some (Method onCreated_applies) else None.

(** A handler whose new state is decided by the event and the state it
    finds, whatever the buffers hold. *)
Definition reads_state_only (h : EventHandler) : Prop :=
  forall event a b, state a = state b ->
    state (snd (h event a)) = state (snd (h event b)).

(** What dispatching [event] makes of the state [st]: the state its
    handler leaves when run on an aggregate holding [st], and [st] itself
    when the class has no handler for the event. *)
Definition project (members : Members) (st : gmap string Value) (event : Event)
    : gmap string Value :=
  match members (String.append "on" (proto_name event)) with
  | Some (Method h) => state (snd (h event (set_state st (new_AggregateRoot ""))))
  | _ => st
  end.

(** The state after dispatching [events] in order, starting from [st]. *)
Definition projected (members : Members) (events : list Event)
    (st : gmap string Value) : gmap string Value :=
  fold_left (project members) events st.

(** A handler that rejects an event after counting it in the state. *)
Definition onRejected : EventHandler := fun event =>
  modify (set_state (<["seen" := VBool true]> ∅)) >>
  throw (ErrorObject (new_Error "rejected")).

(** A handler that counts its calls in the state. *)
Definition count_of (st : gmap string Value) : Z :=
  match st !! "count" with
  | Some (VNum n) => n
  | _ => 0%Z
  end.

Definition onCounted : EventHandler := fun _ =>
  modify (fun a =>
    set_state (<["count" := VNum (count_of (state a) + 1)]> (state a)) a).

Definition Counter : Members := fun name =>
  if String.eqb name "onCounted" then Some (Method onCounted) else None.

Definition Strict : Members := fun name =>
  if String.eqb name "onCreated" then Some (Method onCreated)
  else if String.eqb name "onRejected" then Some (Method onRejected)
  else None.

End Protocol.

(** ** Vocabulary of the toolkit's statements *)

Module Expectations.

Import AggregateRoot Protocol Toolkit.

(** The error object [throwError(message, actual, expected)] raises. *)
Definition failure (colors : Colors) (text received wanted : string) : Thrown :=
  ErrorObject
    {| message :=
         (red colors text ++ nl ++ nl ++ "  "
          ++ (if truthy wanted then green colors ("Expected: " ++ wanted) else "")
          ++ nl ++ "  "
          ++ (if truthy wanted then red colors ("Received: " ++ received) else "")
          ++ nl)%string;
       actual := Some received;
       expected := Some wanted |}.

(** How often the type [target] occurs in the uncommitted buffer. *)
Definition occurrences (target : EventClass) (buffer : list Event) : nat :=
  length (List.filter (fun e => String.eqb (proto_name e) (name target)) buffer).

(** The comparison [includes] makes for one property of one event: two
    arrays by containment, anything else by [===]. *)
Definition agrees (contain : list Value -> list Value -> bool)
    (event : Event) (params : list (string * Value)) (prop : string) : bool :=
  match prop_of event prop, param_of params prop with
  | VArr have, VArr want => contain have want
  | mine, theirs => strict_eq mine theirs
  end.

(** The message of what was raised, as [assertWhen] reads it. *)
Definition message_of (t : Thrown) : string :=
  match t with
  | ErrorObject e => message e
  | NonError _ => ""%string
  end.


(** The colours switched off. *)
Definition plain : Colors :=
  {| red := fun s => s; green := fun s => s; cyan := fun s => s; yellow := fun s => s |}.

(** A rendering of events for the examples. *)
Definition stringify : Event -> string := fun e => proto_name e.

(** A rendering of property values for the examples. *)
Definition show : Value -> string := fun v =>
  match v with
  | VStr s => s
  | VNum n => Z_to_string n
  | VBool true => "true"
  | VBool false => "false"
  | VNull => "null"
  | VUndefined => "undefined"
  | VArr _ => "[...]"
  | VObj _ => "[object Object]"
  | VBuiltin path => path
  end%string.

(** Modelled from the spec: [expect(have).to.contain(want)] of the
    [@hapi/code] package, which is not among the sources; the spec has it
    check "that the event's array contains the expected array as a
    sub-list/subset": every wanted item is among the ones the event
    has. *)
Definition contains_all (have want : list Value) : bool :=
  forallb (fun x => existsb (strict_eq x) have) want.

(** The operation of the README that rejects a token. *)
Definition verifyEmail : WhenCallback :=
  throw (ErrorObject (new_Error "token invalid")).

(** An operation that applies one event and returns. *)
Definition applyEvent (members : Members) (event : Event) : WhenCallback :=
  apply members event false.

Definition named (n : string) : Event := {| proto_name := n; fields := ∅ |}.

(** The events of the test "should validate event includes". *)
Definition First_Marz : Event :=
  {| proto_name := "First";
     fields := <["likes" := VArr [VStr "film"; VStr "tech"]]>
                 (<["name" := VStr "Marz"]> (<["id" := VStr "3"]> ∅)) |}.

Definition Second_Earth : Event :=
  {| proto_name := "Second";
     fields := <["name" := VStr "Earth"]> (<["id" := VStr "2"]> ∅) |}.

Definition Marz_params : list (string * Value) :=
  [("id", VStr "3"); ("name", VStr "Marz");
   ("likes", VArr [VStr "film"; VStr "tech"])]%string.

(** The chain of that test up to [has.event(First)]. *)
Definition Marz_chain : Check :=
  snd ((when plain (applyEvent plain_AggregateRoot First_Marz)
        >> when plain (applyEvent plain_AggregateRoot Second_Earth)
        >> has >> event plain stringify (mkEventClass "First"))
         (check (fresh "a1") [])).

(** An event of type [Liked] carrying a list. *)
Definition Liked (likes : list Value) : Event :=
  {| proto_name := "Liked"; fields := <["likes" := VArr likes]> ∅ |}.

(** An event of type [Renamed] carrying a [name]. *)
Definition Renamed (n : string) : Event :=
  {| proto_name := "Renamed"; fields := <["name" := VStr n]> ∅ |}.

(** Two [Renamed] events applied, then [has.event(Renamed)]. *)
Definition Renamed_chain : Check :=
  snd ((when plain (applyEvent plain_AggregateRoot (Renamed "yogi bear"))
        >> when plain (applyEvent plain_AggregateRoot (Renamed "yogi"))
        >> has >> event plain stringify (mkEventClass "Renamed"))
         (check (fresh "a1") [])).

End Expectations.

(** ** Vocabulary of the further statements *)

Module Behaviour.

Import AggregateRoot Protocol Toolkit Expectations.

(** A check: a computation that leaves the state as it is, and returns
    exactly when [P] holds. *)
Definition decides {S} (c : M S unit) (s : S) (P : Prop) : Prop :=
  snd (c s) = s /\ (fst (c s) = Ok tt <-> P).

(** The flag is among the armed ones. *)
Definition armed (flag : string) (c : Check) : bool := Array_includes (flags c) flag.

(** The type name of an event of the buffer, when there is one. *)
Definition type_of (e : option Event) : option string := proto_name <$> e.

(** What [assertEvent] asks of the targets and the uncommitted buffer,
    flag by flag. *)
Definition expectation_met (c : Check) : Prop :=
  let buffer := uncommitted (aggregate c) in
  buffer <> []
  /\ if armed "excludes" c
     then forall t, In t (events c) -> occurrences t buffer = 0
     else
       (armed "exactly" c = true ->
          forall t, In t (events c) ->
            Z.of_nat (occurrences t buffer) = occuranceExpectation c)
       /\ (armed "one" c = true ->
           forall t, In t (events c) -> occurrences t buffer = 1)
       /\ (armed "first" c = true ->
           forall t, In t (events c) -> type_of (head buffer) = Some (name t))
       /\ (armed "last" c = true ->
           forall t, In t (events c) -> type_of (last buffer) = Some (name t))
       /\ (armed "has" c = true -> armed "one" c = false -> armed "exactly" c = false ->
           forall t, In t (events c) -> occurrences t buffer <> 0).

(** The chain after [assertEvent]: as before, but for the line [debug]
    prints. *)
Definition after_assertEvent (colors : Colors) (JSON_stringify : Event -> string)
    (c : Check) : Check :=
  if armed "debug" c
  then console_log (debug_output colors JSON_stringify
                      (uncommitted (aggregate c)) (events c)) c
  else c.

(** An operation that raises a plain error. *)
Definition raising (text : string) : WhenCallback :=
  throw (ErrorObject (new_Error text)).

(** The calls a test makes on a chain, one after the other. *)
Inductive Step : Type :=
| CallFlag (flag : string)
| CallExactly (n : Z)
| CallWith (text : string)
| CallLoads (history : list Event)
| CallWhen (fn : WhenCallback)
| CallAfter (fns : AfterCallback + list AfterCallback)
| CallEvents (targets : EventClass + list EventClass)
| CallIncludes (params : list (string * Value))
| CallThat
| CallAnd.

(** One call on the chain; [CallFlag] stands for the flag accessors
    ([debug], [throws], [has], [first], [last], [one], [excludes]), which
    push their own name. *)
Definition step (colors : Colors) (JSON_stringify : Event -> string)
    (String_ : Value -> string) (contain : list Value -> list Value -> bool)
    (members : Members) (call : Step) : M Check unit :=
  match call with
  | CallFlag flag => push_flag flag
  | CallExactly n => exactly n
  | CallWith text => with_ text
  | CallLoads history => loads members history
  | CallWhen fn => when colors fn
  | CallAfter fns => let* _ := after colors fns in ret tt
  | CallEvents targets => events_ colors JSON_stringify targets
  | CallIncludes params => includes colors String_ contain params
  | CallThat => that
  | CallAnd => and_
  end.

(** A test making the calls in turn, going on after one that raised. *)
Definition chain (colors : Colors) (JSON_stringify : Event -> string)
    (String_ : Value -> string) (contain : list Value -> list Value -> bool)
    (members : Members) (calls : list Step) (c : Check) : Check :=
  fold_left (fun c call =>
               snd (step colors JSON_stringify String_ contain members call c))
    calls c.

End Behaviour.

(** * Properties of the aggregate root *)

Import AggregateRoot Protocol.

Lemma bind_ok {S A B} (c : M S A) (k : A -> M S B) s a s' :
  c s = (Ok a, s') -> bind c k s = k a s'.
Proof. intros H. unfold bind. now rewrite H. Qed.

Lemma bind_throw {S A B} (c : M S A) (k : A -> M S B) s t s' :
  c s = (Throw t, s') -> bind c k s = (Throw t, s').
Proof. intros H. unfold bind. now rewrite H. Qed.

Lemma getEventHandler_method members event h :
  members (String.append "on" (proto_name event)) = Some (Method h) ->
  getEventHandler members event = Some (String.append "on" (proto_name event), h).
Proof. intros H. unfold getEventHandler, getEventName. now rewrite H. Qed.

Lemma getEventHandler_none members event :
  (forall h, members (String.append "on" (proto_name event)) <> Some (Method h)) ->
  getEventHandler members event = None.
Proof.
  intros H. unfold getEventHandler, getEventName.
  destruct (members _) as [[h|v]|] eqn:E; try reflexivity.
  now destruct (H h).
Qed.

Lemma call_handler_invoke name h event w :
  call_handler (name, h) event w = invoke name h event w.
Proof.
  unfold call_handler, invoke, bind, modify, zoom, log_call, set_this. simpl.
  now destruct (h event (this w)).
Qed.

Lemma apply_with_handler members event isFromHistory h w :
  members (String.append "on" (proto_name event)) = Some (Method h) ->
  apply members event isFromHistory w
  = invoke (String.append "on" (proto_name event)) h event
      (if isFromHistory then w else recorded event w).
Proof.
  intros E. rewrite <- call_handler_invoke. unfold apply.
  rewrite (getEventHandler_method _ _ _ E). now destruct isFromHistory.
Qed.

Lemma apply_without_handler members event isFromHistory w :
  (forall h, members (String.append "on" (proto_name event)) <> Some (Method h)) ->
  apply members event isFromHistory w
  = (Ok tt, if isFromHistory then w else recorded event w).
Proof.
  intros E. unfold apply. rewrite (getEventHandler_none _ _ E).
  now destruct isFromHistory.
Qed.

(** C1. [apply(event)] first pushes the event on the uncommitted buffer and
    then calls the method named [on] followed by the event's type name,
    when the class has one; with no such method it returns without
    raising, the event recorded and nothing else touched.  With
    [isFromHistory] set the same dispatch happens on the instance as it
    stands: nothing is pushed. *)
Theorem apply_records_then_dispatches (members : Members) (event : Event) (w : Instance) :
  match members (String.append "on" (proto_name event)) with
  | Some (Method h) =>
      apply members event false w
        = invoke (String.append "on" (proto_name event)) h event (recorded event w)
      /\ apply members event true w
        = invoke (String.append "on" (proto_name event)) h event w
  | _ =>
      apply members event false w = (Ok tt, recorded event w)
      /\ state (this (recorded event w)) = state (this w)
      /\ INTERNAL_EVENTS (this (recorded event w)) = INTERNAL_EVENTS (this w) ++ [event]
      /\ apply members event true w = (Ok tt, w)
  end.
Proof.
  destruct (members _) as [[h|v]|] eqn:E.
  - split; now rewrite (apply_with_handler _ _ _ _ _ E).
  - rewrite !apply_without_handler by (intros h; congruence). now repeat split.
  - rewrite !apply_without_handler by (intros h; congruence). now repeat split.
Qed.

(** *** Replay *)

(** What one dispatch from history does when handlers project state. *)
Lemma apply_from_history members event w :
  every_handler projects_state members ->
  exists w',
    apply members event true w = (Ok tt, w')
    /\ INTERNAL_EVENTS (this w') = INTERNAL_EVENTS (this w)
    /\ INTERNAL_EVENTS_HISTORY (this w') = INTERNAL_EVENTS_HISTORY (this w)
    /\ INTERNAL_EVENTS_NODES_HISTORY (this w') = INTERNAL_EVENTS_NODES_HISTORY (this w)
    /\ calls w' = calls w ++ pass members [event].
Proof.
  intros Hm. unfold pass. simpl.
  destruct (members (String.append "on" (proto_name event))) as [[h|v]|] eqn:E.
  - rewrite (apply_with_handler _ _ _ _ _ E). unfold invoke.
    destruct (Hm _ _ E) as [Hret Hev Hhist Hnodes].
    specialize (Hret event (this w)). specialize (Hev event (this w)).
    specialize (Hhist event (this w)). specialize (Hnodes event (this w)).
    destruct (h event (this w)) as [r a']. simpl in *. subst r.
    eexists. split; [reflexivity|]. simpl. now repeat split.
  - rewrite apply_without_handler by (intros h; congruence).
    eexists. split; [reflexivity|]. rewrite app_nil_r. now repeat split.
  - rewrite apply_without_handler by (intros h; congruence).
    eexists. split; [reflexivity|]. rewrite app_nil_r. now repeat split.
Qed.

Lemma pass_cons members event events :
  pass members (event :: events) = pass members [event] ++ pass members events.
Proof.
  unfold pass. simpl.
  now destruct (members (String.append "on" (proto_name event))) as [[h|v]|].
Qed.

Lemma loadFromHistory_replays members history :
  every_handler projects_state members ->
  forall w, exists w',
    loadFromHistory members history w = (Ok tt, w')
    /\ INTERNAL_EVENTS (this w') = INTERNAL_EVENTS (this w)
    /\ INTERNAL_EVENTS_HISTORY (this w') = INTERNAL_EVENTS_HISTORY (this w) ++ history
    /\ INTERNAL_EVENTS_NODES_HISTORY (this w') = INTERNAL_EVENTS_NODES_HISTORY (this w)
    /\ calls w' = calls w ++ pass members history.
Proof.
  intros Hm. induction history as [|event history IH]; intros w.
  - exists w. simpl. rewrite !app_nil_r. now repeat split.
  - destruct (apply_from_history members event w Hm) as (w1 & Hap & E1 & H1 & N1 & C1).
    set (w2 := on_this (fun a =>
           set_INTERNAL_EVENTS_HISTORY (INTERNAL_EVENTS_HISTORY a ++ [event]) a) w1).
    destruct (IH w2) as (w' & Hld & E2 & H2 & N2 & C2).
    exists w'. split.
    + unfold loadFromHistory. simpl.
      rewrite (bind_ok _ _ _ tt w2).
      * exact Hld.
      * now rewrite (bind_ok _ _ _ _ _ Hap).
    + rewrite (pass_cons members event history), E2, H2, N2, C2. subst w2.
      revert C1. generalize (pass members [event]) (pass members history).
      intros p1 p2 C1. simpl.
      rewrite E1, H1, N1, C1, <- !app_assoc. now repeat split.
Qed.

Lemma first_pass_over_nodes members nodes :
  every_handler projects_state members ->
  forall w, exists w',
    forEach nodes (fun node =>
      apply members (event_of node) true >>
      modify (on_this (fun a =>
        set_INTERNAL_EVENTS_NODES_HISTORY
          (INTERNAL_EVENTS_NODES_HISTORY a ++ [node]) a))) w = (Ok tt, w')
    /\ INTERNAL_EVENTS (this w') = INTERNAL_EVENTS (this w)
    /\ INTERNAL_EVENTS_HISTORY (this w') = INTERNAL_EVENTS_HISTORY (this w)
    /\ INTERNAL_EVENTS_NODES_HISTORY (this w') = INTERNAL_EVENTS_NODES_HISTORY (this w) ++ nodes
    /\ calls w' = calls w ++ pass members (map event_of nodes).
Proof.
  intros Hm. induction nodes as [|node nodes IH]; intros w.
  - exists w. simpl. rewrite !app_nil_r. now repeat split.
  - destruct (apply_from_history members (event_of node) w Hm)
      as (w1 & Hap & E1 & H1 & N1 & C1).
    set (w2 := on_this (fun a =>
           set_INTERNAL_EVENTS_NODES_HISTORY
             (INTERNAL_EVENTS_NODES_HISTORY a ++ [node]) a) w1).
    destruct (IH w2) as (w' & Hld & E2 & H2 & N2 & C2).
    exists w'. split.
    + simpl. rewrite (bind_ok _ _ _ tt w2).
      * exact Hld.
      * now rewrite (bind_ok _ _ _ _ _ Hap).
    + rewrite map_cons, (pass_cons members (event_of node) (map event_of nodes)),
        E2, H2, N2, C2. subst w2.
      revert C1. generalize (pass members [event_of node])
                            (pass members (map event_of nodes)).
      intros p1 p2 C1. simpl.
      rewrite E1, H1, N1, C1, <- !app_assoc. now repeat split.
Qed.

(** C3, as amended. When the handlers of the class return and leave the
    three buffers as they find them, [loadFromHistory(events)] returns,
    [getUncommittedEvents()] reads as before, and [getLoadedEvents()] is
    the former record followed by [events] in their order; a second call
    adds its events after those of the first. *)
Theorem loadFromHistory_accumulates (members : Members)
    (events more : list Event) (w : Instance) :
  every_handler projects_state members ->
  exists w1 w2,
    loadFromHistory members events w = (Ok tt, w1)
    /\ fst (getUncommittedEvents w1) = fst (getUncommittedEvents w)
    /\ fst (getLoadedEvents w1) = Ok (INTERNAL_EVENTS_HISTORY (this w) ++ events)
    /\ length (INTERNAL_EVENTS_HISTORY (this w1))
       = length (INTERNAL_EVENTS_HISTORY (this w)) + length events
    /\ loadFromHistory members more w1 = (Ok tt, w2)
    /\ fst (getUncommittedEvents w2) = fst (getUncommittedEvents w)
    /\ fst (getLoadedEvents w2)
       = Ok (INTERNAL_EVENTS_HISTORY (this w) ++ events ++ more).
Proof.
  intros Hm.
  destruct (loadFromHistory_replays members events Hm w) as (w1 & L1 & E1 & H1 & _ & _).
  destruct (loadFromHistory_replays members more Hm w1) as (w2 & L2 & E2 & H2 & _ & _).
  exists w1, w2. unfold getUncommittedEvents, getLoadedEvents, gets. simpl.
  rewrite E2, H2, E1, H1, length_app, <- app_assoc. now repeat split.
Qed.

(** C3, as stated, fails: a handler that raises stops the replay, so the
    loaded events grow by one where three events were given; and a
    handler that applies an event of its own makes the uncommitted buffer
    longer. *)
Lemma loadFromHistory_can_load_less_and_record_more :
  fst (loadFromHistory Strict
         [Created "id-01" "2022-04-11"; mkEvent "Rejected" ∅; Updated] (fresh "a1"))
  = Throw (ErrorObject (new_Error "rejected"))
  /\ length (INTERNAL_EVENTS_HISTORY (this (fresh "a1"))) = 0
  /\ length (INTERNAL_EVENTS_HISTORY
               (this (snd (loadFromHistory Strict
                             [Created "id-01" "2022-04-11"; mkEvent "Rejected" ∅; Updated]
                             (fresh "a1"))))) = 1
  /\ length (uncommitted (fresh "a1")) = 0
  /\ length (uncommitted (snd (loadFromHistory Reacting [Created "id-01" "2022-04-11"]
                                 (fresh "a1")))) = 1.
Proof. repeat split; reflexivity. Qed.

(** *** The state a replay projects *)

Lemma apply_from_history_projects members event w :
  every_handler reads_state_only members ->
  state (this (snd (apply members event true w)))
  = project members (state (this w)) event.
Proof.
  intros Hs. unfold project.
  destruct (members (String.append "on" (proto_name event))) as [[h|v]|] eqn:E.
  - rewrite (apply_with_handler _ _ _ _ _ E). unfold invoke.
    pose proof (Hs _ _ E event (this w)
                  (set_state (state (this w)) (new_AggregateRoot "")) eq_refl) as H.
    now destruct (h event (this w)).
  - now rewrite apply_without_handler by (intros h; congruence).
  - now rewrite apply_without_handler by (intros h; congruence).
Qed.

Lemma replay_projects {A} members (g : A -> Event) (post : A -> Aggregate -> Aggregate)
    (l : list A) :
  every_handler projects_state members ->
  every_handler reads_state_only members ->
  (forall x a, state (post x a) = state a) ->
  forall w,
    state (this (snd (forEach l (fun x =>
                        apply members (g x) true >> modify (on_this (post x))) w)))
    = projected members (map g l) (state (this w)).
Proof.
  intros Hp Hs Hpost. induction l as [|x l IH]; intros w.
  - reflexivity.
  - destruct (apply_from_history members (g x) w Hp) as (w1 & Hap & _).
    pose proof (apply_from_history_projects members (g x) w Hs) as Hst.
    rewrite Hap in Hst. simpl in Hst.
    change (forEach (x :: l)
              (fun x => apply members (g x) true >> modify (on_this (post x))) w)
      with (((apply members (g x) true >> modify (on_this (post x))) >>
             forEach l (fun x => apply members (g x) true >> modify (on_this (post x))))
              w).
    rewrite (bind_ok _ _ _ tt (on_this (post x) w1))
      by now rewrite (bind_ok _ _ _ _ _ Hap).
    rewrite IH. simpl. now rewrite Hpost, Hst.
Qed.

(** C4, as amended. When the handlers of the class return and leave the
    three buffers as they find them, [loadFromEventNodes(nodes)] returns
    after two full passes of handler calls over the nodes' events, the
    direct one and then the one of the nested [loadFromHistory]: every
    handled event is dispatched once in each.  Each node is appended once
    to the loaded nodes, each event once to the loaded events, and the
    uncommitted buffer is as before.  The handlers are run, not only
    called upon: when they decide the state from the event and the state
    alone, the state is the one two passes of them make of the former
    state. *)
Theorem loadFromEventNodes_dispatches_twice (members : Members)
    (nodes : list IEventNode) (w : Instance) :
  every_handler projects_state members ->
  exists w',
    loadFromEventNodes members nodes w = (Ok tt, w')
    /\ calls w' = calls w ++ pass members (map event_of nodes)
                          ++ pass members (map event_of nodes)
    /\ length (calls w')
       = length (calls w) + 2 * length (pass members (map event_of nodes))
    /\ INTERNAL_EVENTS_NODES_HISTORY (this w')
       = INTERNAL_EVENTS_NODES_HISTORY (this w) ++ nodes
    /\ INTERNAL_EVENTS_HISTORY (this w')
       = INTERNAL_EVENTS_HISTORY (this w) ++ map event_of nodes
    /\ INTERNAL_EVENTS (this w') = INTERNAL_EVENTS (this w)
    /\ (every_handler reads_state_only members ->
        state (this w')
        = projected members (map event_of nodes ++ map event_of nodes)
            (state (this w))).
Proof.
  intros Hm.
  destruct (first_pass_over_nodes members nodes Hm w) as (w1 & L1 & E1 & H1 & N1 & C1).
  destruct (loadFromHistory_replays members (map event_of nodes) Hm w1)
    as (w2 & L2 & E2 & H2 & N2 & C2).
  exists w2. split.
  - unfold loadFromEventNodes. now rewrite (bind_ok _ _ _ _ _ L1).
  - rewrite C2, E2, H2, N2, C1, E1, H1, N1, <- app_assoc, !length_app.
    repeat split; [lia|].
    intros Hs.
    pose proof (replay_projects members event_of
                  (fun node a => set_INTERNAL_EVENTS_NODES_HISTORY
                                   (INTERNAL_EVENTS_NODES_HISTORY a ++ [node]) a)
                  nodes Hm Hs (fun _ _ => eq_refl) w) as P1.
    cbv beta in P1. rewrite L1 in P1. simpl in P1.
    pose proof (replay_projects members (fun e : Event => e)
                  (fun event a => set_INTERNAL_EVENTS_HISTORY
                                    (INTERNAL_EVENTS_HISTORY a ++ [event]) a)
                  (map event_of nodes) Hm Hs (fun _ _ => eq_refl) w1) as P2.
    cbv beta in P2. unfold loadFromHistory in L2. rewrite L2 in P2. simpl in P2.
    rewrite map_id in P2. unfold projected in *.
    now rewrite fold_left_app, <- P1.
Qed.

(** C4, as stated, fails: when the handler raises, the event has been
    dispatched once, and neither the node nor the event is recorded. *)
Lemma loadFromEventNodes_with_raising_handler_dispatches_once :
  fst (loadFromEventNodes Strict [mkNode (mkEvent "Rejected" ∅) (mkMeta "n1" 0)]
         (fresh "a1"))
  = Throw (ErrorObject (new_Error "rejected"))
  /\ calls (snd (loadFromEventNodes Strict
                   [mkNode (mkEvent "Rejected" ∅) (mkMeta "n1" 0)] (fresh "a1")))
     = [("onRejected"%string, mkEvent "Rejected" ∅)]
  /\ INTERNAL_EVENTS_NODES_HISTORY
       (this (snd (loadFromEventNodes Strict
                     [mkNode (mkEvent "Rejected" ∅) (mkMeta "n1" 0)] (fresh "a1"))))
     = []
  /\ INTERNAL_EVENTS_HISTORY
       (this (snd (loadFromEventNodes Strict
                     [mkNode (mkEvent "Rejected" ∅) (mkMeta "n1" 0)] (fresh "a1"))))
     = [].
Proof. repeat split; reflexivity. Qed.

(** *** The uncommitted buffer *)

Lemma keeps_ret {S X A} (g : S -> X) (a : A) : keeps g (ret a).
Proof. now intros s. Qed.

Lemma keeps_bind {S X A B} (g : S -> X) (c : M S A) (k : A -> M S B) :
  keeps g c -> (forall a, keeps g (k a)) -> keeps g (bind c k).
Proof.
  intros Hc Hk s. unfold bind. specialize (Hc s).
  destruct (c s) as [[a|t] s1]; simpl in *.
  - now rewrite Hk.
  - exact Hc.
Qed.

Lemma keeps_forEach {S X A} (g : S -> X) (l : list A) (f : A -> M S unit) :
  (forall x, keeps g (f x)) -> keeps g (forEach l f).
Proof.
  intros Hf. induction l as [|x l IH]; simpl.
  - apply keeps_ret.
  - apply keeps_bind; [apply Hf | intros _; exact IH].
Qed.

Lemma apply_uncommitted members event isFromHistory w :
  every_handler keeps_uncommitted members ->
  uncommitted (snd (apply members event isFromHistory w))
  = if isFromHistory then uncommitted w else uncommitted w ++ [event].
Proof.
  intros Hm. unfold uncommitted.
  destruct (members (String.append "on" (proto_name event))) as [[h|v]|] eqn:E.
  - rewrite (apply_with_handler _ _ _ _ _ E). unfold invoke.
    pose proof (Hm _ _ E event) as Hh.
    destruct isFromHistory.
    + specialize (Hh (this w)). now destruct (h event (this w)).
    + specialize (Hh (this (recorded event w))).
      now destruct (h event (this (recorded event w))).
  - rewrite apply_without_handler by (intros h; congruence).
    now destruct isFromHistory.
  - rewrite apply_without_handler by (intros h; congruence).
    now destruct isFromHistory.
Qed.

Lemma loadFromHistory_uncommitted members history :
  every_handler keeps_uncommitted members ->
  keeps uncommitted (loadFromHistory members history).
Proof.
  intros Hm. apply keeps_forEach. intros event. apply keeps_bind.
  - intros w. now rewrite apply_uncommitted.
  - now intros _ w.
Qed.

Lemma loadFromEventNodes_uncommitted members nodes :
  every_handler keeps_uncommitted members ->
  keeps uncommitted (loadFromEventNodes members nodes).
Proof.
  intros Hm. apply keeps_bind.
  - apply keeps_forEach. intros node. apply keeps_bind.
    + intros w. now rewrite apply_uncommitted.
    + now intros _ w.
  - intros _. now apply loadFromHistory_uncommitted.
Qed.

Lemma fail_handed closures error handler w :
  FAILURE_HANDLER (this w) = Some handler ->
  fail closures error w = handed (closures handler) error w.
Proof.
  intros H. unfold fail, handed, zoom, set_this. rewrite H.
  now destruct (closures handler error (this w)).
Qed.

Lemma fail_uncommitted closures error w :
  every_closure failure_keeps_uncommitted closures ->
  uncommitted (snd (fail closures error w)) = uncommitted w.
Proof.
  intros Hc. destruct (FAILURE_HANDLER (this w)) as [handler|] eqn:E.
  - rewrite (fail_handed _ _ _ _ E). unfold handed, uncommitted.
    specialize (Hc handler error (this w)).
    now destruct (closures handler error (this w)).
  - unfold fail. now rewrite E.
Qed.

Lemma call_uncommitted members closures op w :
  every_handler keeps_uncommitted members ->
  every_closure failure_keeps_uncommitted closures ->
  uncommitted (snd (call members closures op w)) = buffer_after op (uncommitted w).
Proof.
  intros Hm Hc. destruct op; simpl; try reflexivity.
  - rewrite apply_uncommitted by assumption. now destruct isFromHistory.
  - now apply loadFromHistory_uncommitted.
  - now apply loadFromEventNodes_uncommitted.
  - now apply fail_uncommitted.
Qed.

(** C2, as amended. When the event handlers of the class and the
    installed failure handlers leave the uncommitted buffer as they find
    it, then over any sequence of public calls the buffer is decided call
    by call: [apply] with [isFromHistory] false appends its event,
    [commit] and [uncommit] leave it empty whatever it held, and every
    other call ([apply] from history, [loadFromHistory],
    [loadFromEventNodes], [snapshot], [setFailureHandler], [fail], the
    getters) leaves it as it was. *)
Theorem uncommitted_buffer_invariant (members : Members) (closures : Closures)
    (ops : list Op) (w : Instance) :
  every_handler keeps_uncommitted members ->
  every_closure failure_keeps_uncommitted closures ->
  uncommitted (session members closures ops w)
  = fold_left (fun buffer op => buffer_after op buffer) ops (uncommitted w).
Proof.
  intros Hm Hc. revert w. induction ops as [|op ops IH]; intros w.
  - reflexivity.
  - change (session members closures (op :: ops) w)
      with (session members closures ops (snd (call members closures op w))).
    rewrite IH. simpl. f_equal. now apply call_uncommitted.
Qed.

(** C2, as stated, fails: a replay grows the buffer when a handler applies
    an event of its own, and [fail] empties it when the failure handler
    calls [uncommit]. *)
Lemma replay_and_fail_can_change_the_buffer :
  uncommitted (fresh "a1") = []
  /\ uncommitted (snd (loadFromHistory Reacting [Created "id-01" "2022-04-11"]
                         (fresh "a1")))
     = [Updated]
  /\ uncommitted (snd ((apply plain_AggregateRoot Updated false >> setFailureHandler 2)
                         (fresh "a1")))
     = [Updated]
  /\ uncommitted (snd ((apply plain_AggregateRoot Updated false >> setFailureHandler 2
                        >> fail Loader (NonError VNull)) (fresh "a1")))
     = [].
Proof. repeat split; reflexivity. Qed.

(** *** Failure delegation *)

(** C8, as amended. [fail(error)] hands the error to the installed
    handler and ends as the handler ends: it returns when the handler
    returns and raises what the handler raises, the aggregate being as the
    handler left it; with no handler installed it raises the error
    itself.  [setFailureHandler] replaces whatever was installed: after
    two installations the second handler is the one [fail] calls. *)
Theorem fail_delegates_to_handler (closures : Closures) (error : Thrown)
    (w : Instance) :
  match FAILURE_HANDLER (this w) with
  | Some handler =>
      fail closures error w = handed (closures handler) error w
      /\ fst (fail closures error w) = fst (closures handler error (this w))
  | None => fail closures error w = (Throw error, w)
  end
  /\ forall earlier later : Reference,
       FAILURE_HANDLER
         (this (snd ((setFailureHandler earlier >> setFailureHandler later) w)))
       = Some later
       /\ (setFailureHandler earlier >> setFailureHandler later >> fail closures error) w
          = handed (closures later) error (snd (setFailureHandler later w)).
Proof.
  split.
  - destruct (FAILURE_HANDLER (this w)) as [handler|] eqn:E.
    + rewrite (fail_handed _ _ _ _ E). split; [reflexivity|].
      unfold handed. now destruct (closures handler error (this w)).
    + unfold fail. now rewrite E.
  - intros earlier later. split; [reflexivity|].
    unfold bind, setFailureHandler, modify. now apply fail_handed.
Qed.

(** C8, as stated, fails: with the handler of the README installed, which
    raises the error again, [fail] raises. *)
Lemma fail_raises_when_handler_rethrows :
  FAILURE_HANDLER (this (snd (setFailureHandler 0 (fresh "a1")))) = Some 0
  /\ Loader 0 = unlock_and_rethrow
  /\ fst (fail Loader (ErrorObject (new_Error "locked"))
            (snd (setFailureHandler 0 (fresh "a1"))))
     = Throw (ErrorObject (new_Error "locked")).
Proof. repeat split; reflexivity. Qed.

(** *** The aggregate of the test suite *)

Lemma TestAggregate_method name h :
  TestAggregate name = Some (Method h) -> h = onCreated.
Proof.
  unfold TestAggregate. destruct (String.eqb name "onCreated"); congruence.
Qed.

Lemma TestAggregate_projects_state : every_handler projects_state TestAggregate.
Proof.
  intros name h E. rewrite (TestAggregate_method _ _ E).
  split; intros event a; reflexivity.
Qed.

Lemma TestAggregate_keeps_uncommitted : every_handler keeps_uncommitted TestAggregate.
Proof.
  intros name h E. now apply (handler_keeps_uncommitted _ (TestAggregate_projects_state _ _ E)).
Qed.

Lemma Counter_method name h : Counter name = Some (Method h) -> h = onCounted.
Proof. unfold Counter. destruct (String.eqb name "onCounted"); congruence. Qed.

Lemma Counter_projects_state : every_handler projects_state Counter.
Proof.
  intros name h E. rewrite (Counter_method _ _ E). split; intros event a; reflexivity.
Qed.

Lemma Counter_reads_state_only : every_handler reads_state_only Counter.
Proof.
  intros name h E. rewrite (Counter_method _ _ E). intros event a b H.
  unfold onCounted, modify. simpl. now rewrite H.
Qed.

(** The test "should apply internal state": [create()] applies a
    [Created] event, the handler copies its fields into the state. *)
Example TestAggregate_create :
  let w := snd (apply TestAggregate (Created "id-01" "2022-04-11") false (fresh "a1")) in
  state (this w) !! "id" = Some (VStr "id-01")
  /\ state (this w) !! "createdAt" = Some (VStr "2022-04-11")
  /\ length (uncommitted w) = 1
  /\ calls w = [("onCreated", Created "id-01" "2022-04-11")].
Proof. repeat split; reflexivity. Qed.

(** The test "should apply event" on the plain root: no handler, the
    event is recorded and nothing is called. *)
Example AggregateRoot_apply_without_handler :
  apply plain_AggregateRoot (Created "id-01" "2022-04-11") false (fresh "a1")
  = (Ok tt, recorded (Created "id-01" "2022-04-11") (fresh "a1"))
  /\ calls (recorded (Created "id-01" "2022-04-11") (fresh "a1")) = []
  /\ state (this (recorded (Created "id-01" "2022-04-11") (fresh "a1"))) = ∅.
Proof. repeat split; reflexivity. Qed.

(** A member named like a handler that is not callable is no handler. *)
Example apply_with_field_of_handler_name :
  apply (fun name => if String.eqb name "onUpdated" then Some (Field (VNum 1)) else None)
    Updated true (fresh "a1")
  = (Ok tt, fresh "a1").
Proof. reflexivity. Qed.

Lemma uncommitted_buffer_invariant_witness :
  every_handler keeps_uncommitted TestAggregate
  /\ every_closure failure_keeps_uncommitted Quiet
  /\ uncommitted
       (session TestAggregate Quiet
          [OpApply (Created "id-01" "2022-04-11") false;
           OpLoadFromHistory [Updated]; OpSetFailureHandler 1;
           OpFail (NonError VNull);
           OpCommit; OpApply Updated false] (fresh "a1"))
     = fold_left (fun buffer op => buffer_after op buffer)
         [OpApply (Created "id-01" "2022-04-11") false;
          OpLoadFromHistory [Updated]; OpSetFailureHandler 1;
          OpFail (NonError VNull);
          OpCommit; OpApply Updated false] (uncommitted (fresh "a1")).
Proof.
  split; [exact TestAggregate_keeps_uncommitted|].
  split; [intros ref error a; reflexivity|].
  apply (uncommitted_buffer_invariant TestAggregate Quiet).
  - exact TestAggregate_keeps_uncommitted.
  - intros ref error a. reflexivity.
Defined.

Lemma loadFromHistory_accumulates_witness :
  every_handler projects_state TestAggregate
  /\ exists w1 w2,
    loadFromHistory TestAggregate [Created "id-01" "2022-04-11"; Updated] (fresh "a1")
      = (Ok tt, w1)
    /\ fst (getUncommittedEvents w1) = fst (getUncommittedEvents (fresh "a1"))
    /\ fst (getLoadedEvents w1)
       = Ok (INTERNAL_EVENTS_HISTORY (this (fresh "a1"))
             ++ [Created "id-01" "2022-04-11"; Updated])
    /\ length (INTERNAL_EVENTS_HISTORY (this w1))
       = length (INTERNAL_EVENTS_HISTORY (this (fresh "a1")))
         + length [Created "id-01" "2022-04-11"; Updated]
    /\ loadFromHistory TestAggregate [Updated] w1 = (Ok tt, w2)
    /\ fst (getUncommittedEvents w2) = fst (getUncommittedEvents (fresh "a1"))
    /\ fst (getLoadedEvents w2)
       = Ok (INTERNAL_EVENTS_HISTORY (this (fresh "a1"))
             ++ [Created "id-01" "2022-04-11"; Updated] ++ [Updated]).
Proof.
  split.
  - exact TestAggregate_projects_state.
  - apply (loadFromHistory_accumulates TestAggregate).
    exact TestAggregate_projects_state.
Defined.

Lemma loadFromEventNodes_dispatches_twice_witness :
  every_handler projects_state Counter
  /\ exists w',
    loadFromEventNodes Counter
      [mkNode (mkEvent "Counted" ∅) (mkMeta "n1" 0)] (fresh "a1") = (Ok tt, w')
    /\ calls w'
       = calls (fresh "a1")
         ++ pass Counter (map event_of [mkNode (mkEvent "Counted" ∅) (mkMeta "n1" 0)])
         ++ pass Counter (map event_of [mkNode (mkEvent "Counted" ∅) (mkMeta "n1" 0)])
    /\ length (calls w')
       = length (calls (fresh "a1"))
         + 2 * length (pass Counter
                         (map event_of [mkNode (mkEvent "Counted" ∅) (mkMeta "n1" 0)]))
    /\ INTERNAL_EVENTS_NODES_HISTORY (this w')
       = INTERNAL_EVENTS_NODES_HISTORY (this (fresh "a1"))
         ++ [mkNode (mkEvent "Counted" ∅) (mkMeta "n1" 0)]
    /\ INTERNAL_EVENTS_HISTORY (this w')
       = INTERNAL_EVENTS_HISTORY (this (fresh "a1"))
         ++ map event_of [mkNode (mkEvent "Counted" ∅) (mkMeta "n1" 0)]
    /\ INTERNAL_EVENTS (this w') = INTERNAL_EVENTS (this (fresh "a1"))
    /\ every_handler reads_state_only Counter
    /\ state (this w')
       = projected Counter
           (map event_of [mkNode (mkEvent "Counted" ∅) (mkMeta "n1" 0)]
            ++ map event_of [mkNode (mkEvent "Counted" ∅) (mkMeta "n1" 0)])
           (state (this (fresh "a1")))
    /\ count_of (projected Counter
                   (map event_of [mkNode (mkEvent "Counted" ∅) (mkMeta "n1" 0)]
                    ++ map event_of [mkNode (mkEvent "Counted" ∅) (mkMeta "n1" 0)])
                   (state (this (fresh "a1")))) = 2%Z.
Proof.
  split; [exact Counter_projects_state|].
  destruct (loadFromEventNodes_dispatches_twice Counter
              [mkNode (mkEvent "Counted" ∅) (mkMeta "n1" 0)] (fresh "a1")
              Counter_projects_state)
    as (w' & Hrun & Hcalls & Hlen & Hnodes & Hloaded & Hpending & Hstate).
  exists w'.
  split; [exact Hrun|]. split; [exact Hcalls|]. split; [exact Hlen|].
  split; [exact Hnodes|]. split; [exact Hloaded|]. split; [exact Hpending|].
  split; [exact Counter_reads_state_only|].
  split; [exact (Hstate Counter_reads_state_only) | reflexivity].
Defined.

(** One counted node: the handler has run twice. *)
Example loadFromEventNodes_runs_the_handler_twice :
  count_of (projected Counter [mkEvent "Counted" ∅; mkEvent "Counted" ∅]
              (state (this (fresh "a1")))) = 2%Z
  /\ count_of (state (this (snd (loadFromEventNodes Counter
                                   [mkNode (mkEvent "Counted" ∅) (mkMeta "n1" 0)]
                                   (fresh "a1"))))) = 2%Z.
Proof. split; reflexivity. Qed.

(** One node whose event has a handler: the handler runs twice. *)
Example loadFromEventNodes_one_node :
  calls (snd (loadFromEventNodes TestAggregate
                [mkNode (Created "id-01" "2022-04-11") (mkMeta "n1" 0)] (fresh "a1")))
  = [("onCreated", Created "id-01" "2022-04-11");
     ("onCreated", Created "id-01" "2022-04-11")].
Proof. reflexivity. Qed.

(** * Properties of the test toolkit *)

Import Toolkit Expectations.

Lemma throwError_raises {A} colors text received wanted (c : Check) :
  throwError (A := A) colors text received wanted c
  = (Throw (failure colors text received wanted), c).
Proof. reflexivity. Qed.

Lemma occurances_from (names : list string) (key : string) (start : nat) :
  fold_left (fun acc curr => acc + (if String.eqb curr key then 1 else 0)) names start
  = start + length (List.filter (fun n => String.eqb n key) names).
Proof.
  revert start. induction names as [|n names IH]; intros start; simpl.
  - lia.
  - rewrite IH. destruct (String.eqb n key); simpl; lia.
Qed.

Lemma occurances_occurrences (target : EventClass) (buffer : list Event) :
  occurances (map getEventProtoName buffer) (getEventClassName target)
  = occurrences target buffer.
Proof.
  unfold occurances, occurrences. rewrite occurances_from. simpl.
  induction buffer as [|e buffer IH]; simpl.
  - reflexivity.
  - unfold getEventProtoName at 1, getEventClassName at 1.
    destruct (String.eqb (proto_name e) (name target)); simpl; now rewrite IH.
Qed.

(** C5, as amended. With [excludes] armed, whatever else is armed:
    on an empty uncommitted buffer the check fails, reporting 0 against
    "1 or more"; on a buffer that is not empty and does not hold the
    target's type the check succeeds, no other armed check being made; on
    a buffer that holds it [n] times, [n] at least 1, the check fails
    reporting [n] as actual and 0 as expected. *)
Theorem excludes_check (colors : Colors) (JSON_stringify : Event -> string)
    (target : EventClass) (c : Check) :
  Array_includes (flags c) "excludes" = true ->
  (uncommitted (aggregate c) = [] ->
     fst (event colors JSON_stringify target c)
     = Throw (failure colors
                "There are no events in the aggregate event stream to evaluate."
                "0" "1 or more"))
  /\ (uncommitted (aggregate c) <> [] ->
      occurrences target (uncommitted (aggregate c)) = 0 ->
      fst (event colors JSON_stringify target c) = Ok tt)
  /\ (occurrences target (uncommitted (aggregate c)) <> 0 ->
      exists err,
        fst (event colors JSON_stringify target c) = Throw (ErrorObject err)
        /\ actual err = Some (nat_to_string (occurrences target (uncommitted (aggregate c))))
        /\ expected err = Some "0"%string).
Proof.
  intros Hex.
  destruct c as [fl evs n wm [a cl] out]. simpl in Hex. unfold uncommitted. simpl.
  unfold event, addEvents, assertEvent, on_aggregate, getUncommittedEvents.
  unfold bind, modify, gets, zoom. simpl. rewrite Hex.
  pose proof (occurances_occurrences target (INTERNAL_EVENTS a)) as Hocc.
  rewrite Hocc. clear Hocc.
  repeat split.
  - intros Hempty. rewrite Hempty. simpl.
    now destruct (Array_includes fl "debug").
  - intros Hne Hzero. rewrite Hzero.
    destruct (INTERNAL_EVENTS a) as [|e buffer]; [congruence|]. simpl.
    now destruct (Array_includes fl "debug").
  - intros Hpos.
    destruct (INTERNAL_EVENTS a) as [|e buffer] eqn:Hbuf; [now destruct Hpos|].
    destruct (occurrences target (e :: buffer)) as [|k] eqn:Hk; [congruence|].
    eexists. simpl.
    destruct (Array_includes fl "debug"); simpl; (split; [reflexivity|now split]).
Qed.

(** C5, as stated, fails: on an aggregate nothing was ever applied to,
    the [excludes] check of a type raises instead of succeeding. *)
Lemma excludes_on_fresh_aggregate_fails :
  uncommitted (fresh "a1") = []
  /\ fst ((excludes >> event plain stringify (mkEventClass "Created"))
            (check (fresh "a1") []))
     = Throw (failure plain
                "There are no events in the aggregate event stream to evaluate."
                "0" "1 or more").
Proof. split; reflexivity. Qed.

Lemma excludes_check_witness :
  Array_includes
    (flags (snd ((when plain (applyEvent TestAggregate Updated) >> excludes)
                   (check (fresh "a1") [])))) "excludes" = true
  /\ fst (event plain stringify (mkEventClass "Created")
            (snd ((when plain (applyEvent TestAggregate Updated) >> excludes)
                    (check (fresh "a1") [])))) = Ok tt.
Proof.
  split; [reflexivity|].
  apply (excludes_check plain stringify (mkEventClass "Created")
           (snd ((when plain (applyEvent TestAggregate Updated) >> excludes)
                   (check (fresh "a1") []))));
    [reflexivity | discriminate | reflexivity].
Defined.

(** The README's closing steps: the type was applied once, the check
    reports one occurrence against none. *)
Example excludes_after_one_application :
  fst ((when plain (applyEvent TestAggregate Updated) >> excludes
        >> event plain stringify (mkEventClass "Updated")) (check (fresh "a1") []))
  = Throw (failure plain "Event 'Updated' was found in the aggregate event stream."
             "1" "0").
Proof. reflexivity. Qed.

(** With [excludes] armed the other armed checks are not made: [first],
    [one] and [exactly(5)] would each fail on this buffer. *)
Example excludes_skips_other_checks :
  fst ((when plain (applyEvent TestAggregate Updated)
        >> excludes >> first >> one >> exactly 5
        >> event plain stringify (mkEventClass "Created")) (check (fresh "a1") []))
  = Ok tt.
Proof. reflexivity. Qed.

(** *** First and last *)

(** C9. On an uncommitted buffer holding a [First], a [Middle] and a
    [Last] event in that order, [first.event(First)] and
    [last.event(Last)] succeed, with or without [has]; and
    [first.event(Middle)] raises an assertion error whose [actual] is
    Middle and whose [expected] is First. *)
Theorem first_and_last_checks (colors : Colors) (JSON_stringify : Event -> string)
    (w : Instance) (out : list string) (f m l : gmap string Value) :
  uncommitted w = [mkEvent "First" f; mkEvent "Middle" m; mkEvent "Last" l] ->
  fst ((first >> event colors JSON_stringify (mkEventClass "First")) (check w out)) = Ok tt
  /\ fst ((last_ >> event colors JSON_stringify (mkEventClass "Last")) (check w out)) = Ok tt
  /\ fst ((has >> first >> event colors JSON_stringify (mkEventClass "First")
           >> and_ >> has >> last_ >> event colors JSON_stringify (mkEventClass "Last"))
            (check w out)) = Ok tt
  /\ exists err,
       fst ((first >> event colors JSON_stringify (mkEventClass "Middle")) (check w out))
       = Throw (ErrorObject err)
       /\ actual err = Some "Middle"%string
       /\ expected err = Some "First"%string.
Proof.
  destruct w as [[i buffer hist nodes handler st] cl]. unfold uncommitted. simpl.
  intros ->. repeat split.
  eexists. split; [reflexivity|]. split; reflexivity.
Qed.

Lemma first_and_last_checks_witness :
  uncommitted
    (aggregate (snd ((when plain (applyEvent plain_AggregateRoot (named "First"))
                      >> when plain (applyEvent plain_AggregateRoot (named "Middle"))
                      >> when plain (applyEvent plain_AggregateRoot (named "Last")))
                       (check (fresh "a1") []))))
  = [mkEvent "First" ∅; mkEvent "Middle" ∅; mkEvent "Last" ∅]
  /\ exists err,
       fst ((first >> event plain stringify (mkEventClass "Middle"))
              (check (aggregate (snd ((when plain (applyEvent plain_AggregateRoot (named "First"))
                      >> when plain (applyEvent plain_AggregateRoot (named "Middle"))
                      >> when plain (applyEvent plain_AggregateRoot (named "Last")))
                       (check (fresh "a1") [])))) []))
       = Throw (ErrorObject err)
       /\ actual err = Some "Middle"%string
       /\ expected err = Some "First"%string.
Proof.
  split; [reflexivity|].
  apply (first_and_last_checks plain stringify _ [] ∅ ∅ ∅). reflexivity.
Defined.

(** *** Operations that must raise *)

Lemma assertWhen_throws_armed_no_raise colors (c : Check) (fn : AfterCallback)
    (async_ : bool) (w' : Instance) :
  Array_includes (flags c) "throws" = true ->
  fn (aggregate c) = (Ok (Resolved tt), w') ->
  assertWhen colors fn async_ c
  = (Ok (Rejected (failure colors "Failed to throw error for aggregate method" "" "")),
     set_aggregate w' c).
Proof.
  intros Harmed Hfn.
  unfold assertWhen, async, bind, gets, try_catch, on_aggregate, zoom, await, ret.
  rewrite Harmed. destruct async_; cbv beta; rewrite Hfn; reflexivity.
Qed.

Lemma as_AfterCallback_returns (fn : WhenCallback) (w w' : Instance) :
  fn w = (Ok tt, w') -> as_AfterCallback fn w = (Ok (Resolved tt), w').
Proof. intros H. unfold as_AfterCallback, bind. now rewrite H. Qed.

(** C6, on the code. With [throws] armed and an operation that returns
    without raising, [assertWhen] settles its promise as rejected with the
    "Failed to throw" assertion error; [after] awaits that promise, so the
    promise it answers is rejected with the error; [when] does not await
    it: [when] returns the chain and the caller sees no failure. *)
Theorem when_drops_failed_to_throw (colors : Colors) (c : Check)
    (fn : WhenCallback) (w' : Instance) :
  Array_includes (flags c) "throws" = true ->
  fn (aggregate c) = (Ok tt, w') ->
  when colors fn c = (Ok tt, set_aggregate w' c)
  /\ after colors (inl (as_AfterCallback fn)) c
     = (Ok (Rejected (failure colors "Failed to throw error for aggregate method" "" "")),
        set_aggregate w' c).
Proof.
  intros Harmed Hfn.
  pose proof (assertWhen_throws_armed_no_raise colors c _ false w' Harmed
                (as_AfterCallback_returns _ _ _ Hfn)) as Hsync.
  pose proof (assertWhen_throws_armed_no_raise colors c _ true w' Harmed
                (as_AfterCallback_returns _ _ _ Hfn)) as Hasync.
  split.
  - unfold when. now rewrite (bind_ok _ _ _ _ _ Hsync).
  - unfold after, async. simpl. unfold bind at 1. rewrite (bind_ok _ _ _ _ _ Hasync).
    reflexivity.
Qed.

Lemma when_drops_failed_to_throw_witness :
  Array_includes (flags (snd (throws (check (fresh "a1") [])))) "throws" = true
  /\ applyEvent plain_AggregateRoot (named "Created")
       (aggregate (snd (throws (check (fresh "a1") []))))
     = (Ok tt, recorded (named "Created") (fresh "a1"))
  /\ when plain (applyEvent plain_AggregateRoot (named "Created"))
       (snd (throws (check (fresh "a1") [])))
     = (Ok tt, set_aggregate (recorded (named "Created") (fresh "a1"))
                 (snd (throws (check (fresh "a1") [])))).
Proof.
  split; [reflexivity|]. split; [reflexivity|].
  apply (when_drops_failed_to_throw plain (snd (throws (check (fresh "a1") [])))
           (applyEvent plain_AggregateRoot (named "Created"))
           (recorded (named "Created") (fresh "a1")));
    reflexivity.
Defined.

(** The chain [check(new AggregateRoot()).throws.when(a => a.apply(new
    Created()))] returns; the only trace of the missing raise is the
    promise nobody holds. *)
Example throws_when_returns :
  fst ((throws >> when plain (applyEvent plain_AggregateRoot (named "Created")))
         (check (fresh "a1") [])) = Ok tt.
Proof. reflexivity. Qed.

(** *** The expected message *)





Lemma assertWhen_throws_armed_raise colors (c : Check) (fn : AfterCallback)
    (t : Thrown) (w' : Instance) :
  Array_includes (flags c) "throws" = true ->
  fn (aggregate c) = (Throw t, w') \/ fn (aggregate c) = (Ok (Rejected t), w') ->
  assertWhen colors fn true c
  = (Ok match withMessage c with
        | Some text =>
          if truthy text
             && negb (String_includes (toLowerCase (message_of t)) (toLowerCase text))
          then Rejected (failure colors "Expected error message did not match"
                           (message_of t) text)
          else Resolved tt
        | None => Resolved tt
        end,
     set_aggregate w' c).
Proof.
  intros Harmed Hfn.
  assert ((let* pending := on_aggregate fn in await pending) c
          = (Throw t, set_aggregate w' c)) as Hraise.
  { unfold bind, on_aggregate, zoom. destruct Hfn as [-> | ->]; reflexivity. }
  unfold assertWhen, async. unfold bind at 1, gets at 1.
  cbv beta iota. rewrite Harmed. unfold bind at 1, try_catch.
  rewrite (bind_throw _ _ _ _ _ Hraise).
  unfold bind, gets. simpl. fold (message_of t).
  destruct (withMessage c) as [text|]; [|reflexivity].
  now destruct (truthy text && _).
Qed.




(** The three cases of the specification's example. *)
Example with_invalid_resolves :
  fst ((throws >> with_ "invalid" >> after plain (inl (as_AfterCallback verifyEmail)))
         (check (fresh "a1") [])) = Ok (Resolved tt).
Proof. reflexivity. Qed.

Example with_upper_case_resolves :
  fst ((throws >> with_ "Token INVALID"
        >> after plain (inl (as_AfterCallback verifyEmail)))
         (check (fresh "a1") [])) = Ok (Resolved tt).
Proof. reflexivity. Qed.

Example with_expired_rejects :
  fst ((throws >> with_ "expired" >> after plain (inl (as_AfterCallback verifyEmail)))
         (check (fresh "a1") []))
  = Ok (Rejected (failure plain "Expected error message did not match"
                    "token invalid" "expired")).
Proof. reflexivity. Qed.

(** *** Field inclusion *)

Lemma forEach_checks {S A} (l : list A) (f : A -> M S unit) (s : S) :
  (forall x, snd (f x s) = s) ->
  snd (forEach l f s) = s
  /\ (fst (forEach l f s) = Ok tt <-> forall x, In x l -> fst (f x s) = Ok tt).
Proof.
  intros Hpure. induction l as [|x l [IHs IHr]]; simpl.
  - split; [reflexivity|]. split; [intros _ x []|reflexivity].
  - unfold bind. specialize (Hpure x).
    destruct (f x s) as [[[]|t] s1] eqn:Hx; simpl in Hpure; subst s1.
    + split; [exact IHs|]. rewrite IHr. split.
      * intros H y [<-|Hy]; [now rewrite Hx | now apply H].
      * intros H y Hy. apply H. now right.
    + split; [reflexivity|]. simpl. split; [discriminate|].
      intros H. specialize (H x (or_introl eq_refl)). rewrite Hx in H. exact H.
Qed.

Lemma forEach_decides {S A} (P : A -> Prop) (l : list A) (f : A -> M S unit) (s : S) :
  (forall x, snd (f x s) = s /\ (fst (f x s) = Ok tt <-> P x)) ->
  snd (forEach l f s) = s
  /\ (fst (forEach l f s) = Ok tt <-> forall x, In x l -> P x).
Proof.
  intros Hf. destruct (forEach_checks l f s) as [Hs Hr].
  - intros x. apply Hf.
  - split; [exact Hs|]. rewrite Hr.
    split; intros H x Hin; now apply Hf, H.
Qed.

Lemma assertProp_agrees colors String_ contain mismatch event params prop (c : Check) :
  snd (assertProp colors String_ contain mismatch event params prop c) = c
  /\ (fst (assertProp colors String_ contain mismatch event params prop c) = Ok tt
      <-> agrees contain event params prop = true).
Proof.
  unfold assertProp, agrees.
  destruct (prop_of event prop) as [| |b|n|s|have|r|path];
    destruct (param_of params prop) as [| |b'|n'|s'|want|r'|path']; cbv beta iota zeta;
    match goal with
    | |- context [when_ (negb ?b)] => destruct b
    end; simpl; (split; [reflexivity|]); split; intros; congruence.
Qed.

Lemma strict_eq_common (x y p : Value) :
  strict_eq x p = true -> strict_eq y p = true -> strict_eq x y = true.
Proof.
  destruct x, p; simpl; try discriminate; destruct y; simpl; try discriminate;
    rewrite ?Z.eqb_eq, ?String.eqb_eq, ?Nat.eqb_eq, ?Bool.eqb_true_iff;
    congruence.
Qed.

Lemma agrees_common contain (u1 u2 : Event) params prop :
  isArray (prop_of u1 prop) && isArray (prop_of u2 prop) = false ->
  agrees contain u1 params prop = true ->
  agrees contain u2 params prop = true ->
  strict_eq (prop_of u1 prop) (prop_of u2 prop) = true.
Proof.
  unfold agrees.
  destruct (prop_of u1 prop) as [| |b|n|s|have|r|path] eqn:E1;
    destruct (prop_of u2 prop) as [| |b2|n2|s2|have2|r2|path2] eqn:E2;
    simpl; try discriminate; intros _;
    destruct (param_of params prop) as [| |b'|n'|s'|want|r'|path']; simpl;
    try discriminate;
    rewrite ?Z.eqb_eq, ?String.eqb_eq, ?Nat.eqb_eq, ?Bool.eqb_true_iff;
    congruence.
Qed.

(** C10, as amended. Without the [last] flag and with targets recorded,
    [includes(params)] succeeds exactly when every uncommitted event whose
    type is that of a recorded target agrees with [params] on every
    property of [params] (two arrays by containment, anything else by
    [===]): one matching event that differs from [params] makes the call
    fail.  So when two uncommitted events of a target's type hold, under
    a property of [params], values that are different under [===] and not
    both arrays, the call fails. *)
Theorem includes_checks_every_matching_event (colors : Colors)
    (String_ : Value -> string) (contain : list Value -> list Value -> bool)
    (c : Check) (params : list (string * Value)) :
  Array_includes (flags c) "last" = false ->
  events c <> [] ->
  (fst (includes colors String_ contain params c) = Ok tt
   <-> forall target u prop,
         In target (events c) -> In u (uncommitted (aggregate c)) ->
         name target = proto_name u -> In prop (map fst params) ->
         agrees contain u params prop = true)
  /\ forall target u1 u2 prop,
       In target (events c) ->
       In u1 (uncommitted (aggregate c)) -> In u2 (uncommitted (aggregate c)) ->
       name target = proto_name u1 -> name target = proto_name u2 ->
       In prop (map fst params) ->
       isArray (prop_of u1 prop) && isArray (prop_of u2 prop) = false ->
       strict_eq (prop_of u1 prop) (prop_of u2 prop) = false ->
       fst (includes colors String_ contain params c) <> Ok tt.
Proof.
  intros Hlast Htargets.
  assert (fst (includes colors String_ contain params c) = Ok tt
          <-> forall target u prop,
                In target (events c) -> In u (uncommitted (aggregate c)) ->
                name target = proto_name u -> In prop (map fst params) ->
                agrees contain u params prop = true) as Hiff.
  { destruct c as [fl evs n wm [a cl] out]. simpl in *. unfold uncommitted. simpl.
    unfold includes, assertEventParams, on_aggregate, getUncommittedEvents.
    unfold bind at 1, gets at 1. unfold bind at 1, gets at 1. cbv beta iota.
    simpl flags. simpl events. rewrite Hlast.
    destruct evs as [|target0 evs0]; [congruence|].
    unfold bind at 1. simpl length. simpl when_. unfold ret at 1.
    unfold bind at 1, zoom, gets. simpl.
    set (c := {| flags := fl; events := target0 :: evs0; occuranceExpectation := n;
                 withMessage := wm; aggregate := {| this := a; calls := cl |};
                 console := out |}).
    set (perProp := fun (target : EventClass) (u : Event) =>
           forEach (map fst params) (fun prop =>
             assertProp colors String_ contain
               ("No matching property found on event '" ++ getEventClassName target
                ++ "' for property '" ++ prop ++ "'") u params prop)).
    assert (forall target u,
              snd (perProp target u c) = c
              /\ (fst (perProp target u c) = Ok tt
                  <-> forall prop, In prop (map fst params) ->
                                   agrees contain u params prop = true)) as Hprops.
    { intros target u. unfold perProp.
      apply (forEach_decides (fun prop => agrees contain u params prop = true)).
      intros prop. apply assertProp_agrees. }
    set (perEvent := fun (target : EventClass) (u : Event) =>
           when_ (String.eqb (getEventClassName target) (getEventProtoName u))
             (perProp target u)).
    assert (forall target u,
              snd (perEvent target u c) = c
              /\ (fst (perEvent target u c) = Ok tt
                  <-> (name target = proto_name u ->
                       forall prop, In prop (map fst params) ->
                                    agrees contain u params prop = true))) as Hevent.
    { intros target u. unfold perEvent, getEventClassName, getEventProtoName.
      destruct (String.eqb_spec (name target) (proto_name u)) as [Heq|Hne]; simpl.
      - destruct (Hprops target u) as [Hs Hr]. split; [exact Hs|].
        rewrite Hr. split; [intros H _; exact H | intros H; now apply H].
      - split; [reflexivity|]. split; [intros _ H; now destruct Hne | reflexivity]. }
    assert (forall target,
              snd (forEach (INTERNAL_EVENTS a) (perEvent target) c) = c
              /\ (fst (forEach (INTERNAL_EVENTS a) (perEvent target) c) = Ok tt
                  <-> forall u, In u (INTERNAL_EVENTS a) -> name target = proto_name u ->
                        forall prop, In prop (map fst params) ->
                                     agrees contain u params prop = true)) as Htarget.
    { intros target.
      apply (forEach_decides (fun u => name target = proto_name u ->
               forall prop, In prop (map fst params) ->
                            agrees contain u params prop = true)).
      intros u. apply Hevent. }
    change (fst (forEach (target0 :: evs0)
                   (fun target => forEach (INTERNAL_EVENTS a) (perEvent target)) c) = Ok tt
            <-> forall target u prop,
                  In target (target0 :: evs0) -> In u (INTERNAL_EVENTS a) ->
                  name target = proto_name u -> In prop (map fst params) ->
                  agrees contain u params prop = true).
    destruct (forEach_decides
                (fun target => forall u, In u (INTERNAL_EVENTS a) ->
                   name target = proto_name u ->
                   forall prop, In prop (map fst params) ->
                                agrees contain u params prop = true)
                (target0 :: evs0)
                (fun target => forEach (INTERNAL_EVENTS a) (perEvent target)) c)
      as [_ Hr].
    - intros target. apply Htarget.
    - rewrite Hr. split.
      + intros H target u prop Ht Hu Hname Hp. now apply (H target Ht u Hu Hname prop Hp).
      + intros H target Ht u Hu Hname prop Hp. now apply (H target u prop). }
  split; [exact Hiff|].
  intros target u1 u2 prop Ht H1 H2 N1 N2 Hp Harr Hdiff Hok.
  rewrite Hiff in Hok.
  pose proof (Hok target u1 prop Ht H1 N1 Hp) as A1.
  pose proof (Hok target u2 prop Ht H2 N2 Hp) as A2.
  rewrite (agrees_common contain u1 u2 params prop Harr A1 A2) in Hdiff.
  discriminate.
Qed.

(** C10, as stated, fails: two [Liked] events with different lists both
    pass one [includes] that asks for an item the two lists share. *)
Lemma two_events_with_different_lists_both_pass :
  strict_eq (prop_of (Liked [VStr "film"; VStr "tech"]) "likes")
            (prop_of (Liked [VStr "film"; VStr "art"]) "likes") = false
  /\ [VStr "film"; VStr "tech"] <> [VStr "film"; VStr "art"]
  /\ fst ((when plain (applyEvent plain_AggregateRoot (Liked [VStr "film"; VStr "tech"]))
           >> when plain (applyEvent plain_AggregateRoot (Liked [VStr "film"; VStr "art"]))
           >> has >> event plain stringify (mkEventClass "Liked")
           >> that
           >> includes plain show contains_all [("likes", VArr [VStr "film"])]%string)
            (check (fresh "a1") []))
     = Ok tt.
Proof. split; [reflexivity|]. split; [discriminate | reflexivity]. Qed.

Lemma includes_checks_every_matching_event_witness :
  Array_includes (flags Renamed_chain) "last" = false
  /\ events Renamed_chain <> []
  /\ uncommitted (aggregate Renamed_chain) = [Renamed "yogi bear"; Renamed "yogi"]
  /\ fst (includes plain show contains_all [("name", VStr "yogi")]%string Renamed_chain)
     <> Ok tt
  /\ fst (includes plain show contains_all [("name", VStr "yogi bear")]%string
            Renamed_chain)
     <> Ok tt
  /\ fst (includes plain show contains_all Marz_params Marz_chain) = Ok tt.
Proof.
  split; [reflexivity|]. split; [discriminate|]. split; [reflexivity|].
  split; [|split].
  - destruct (includes_checks_every_matching_event plain show contains_all
                Renamed_chain [("name", VStr "yogi")]%string eq_refl) as [_ H];
      [discriminate|].
    apply (H (mkEventClass "Renamed") (Renamed "yogi bear") (Renamed "yogi")
             "name"%string);
      [now left | now left | right; now left | reflexivity | reflexivity
       | now left | reflexivity | reflexivity].
  - destruct (includes_checks_every_matching_event plain show contains_all
                Renamed_chain [("name", VStr "yogi bear")]%string eq_refl) as [_ H];
      [discriminate|].
    apply (H (mkEventClass "Renamed") (Renamed "yogi bear") (Renamed "yogi")
             "name"%string);
      [now left | now left | right; now left | reflexivity | reflexivity
       | now left | reflexivity | reflexivity].
  - apply (includes_checks_every_matching_event plain show contains_all
             Marz_chain Marz_params); [reflexivity | discriminate |].
    intros target u prop Ht Hu Hname Hp.
    destruct Ht as [<-|[]].
    destruct Hu as [<-|[<-|[]]]; [|discriminate].
    destruct Hp as [<-|[<-|[<-|[]]]]; reflexivity.
Defined.

(** A property every object inherits is read through the prototype chain:
    asking for [toString] to be [undefined] fails on any event. *)
Example includes_reads_inherited_properties :
  prop_of (Renamed "yogi") "toString" = VBuiltin "Object.prototype.toString"
  /\ prop_of (Renamed "yogi") "constructor" = VBuiltin "Renamed"
  /\ exists found,
       fst (includes plain show contains_all [("toString", VUndefined)]%string
              Renamed_chain)
       = Throw (failure plain
                  "No matching property found on event 'Renamed' for property 'toString'"
                  found "toString - undefined").
Proof. split; [reflexivity|]. split; [reflexivity|]. eexists. reflexivity. Qed.

(** Two [Renamed] events with different names: no [includes] on [name]
    passes, whichever of the two names it asks for. *)
Example includes_two_events_of_one_type :
  fst ((when plain (applyEvent plain_AggregateRoot (Renamed "yogi bear"))
        >> when plain (applyEvent plain_AggregateRoot (Renamed "yogi"))
        >> has >> event plain stringify (mkEventClass "Renamed")
        >> that >> includes plain show contains_all [("name", VStr "yogi")]%string)
         (check (fresh "a1") []))
  = Throw (failure plain "No matching property found on event 'Renamed' for property 'name'"
             "name - yogi bear" "name - yogi").
Proof. reflexivity. Qed.

(** * Further properties of the aggregate root *)

Import Behaviour.

Lemma forEach_app {S A} (l1 l2 : list A) (f : A -> M S unit) (s : S) :
  forEach (l1 ++ l2) f s = (forEach l1 f >> forEach l2 f) s.
Proof.
  revert s. induction l1 as [|x l1 IH]; intros s.
  - reflexivity.
  - change (forEach ((x :: l1) ++ l2) f s)
      with (bind (f x) (fun _ => forEach (l1 ++ l2) f) s).
    change (forEach (x :: l1) f) with (f x >> forEach l1 f).
    unfold bind at 1 2 3. destruct (f x s) as [[u|t] s1].
    + rewrite IH. reflexivity.
    + reflexivity.
Qed.

(** X1. Replaying a history in two batches is replaying it at once:
    the same outcome and the same instance, whatever the handlers do. *)
Theorem loadFromHistory_in_batches (members : Members)
    (earlier later : list Event) (w : Instance) :
  loadFromHistory members (earlier ++ later) w
  = (loadFromHistory members earlier >> loadFromHistory members later) w.
Proof. unfold loadFromHistory. apply forEach_app. Qed.

Lemma apply_raises_through_handler members event isFromHistory t w w' :
  apply members event isFromHistory w = (Throw t, w') ->
  calls w' = calls w ++ [(String.append "on" (proto_name event), event)].
Proof.
  destruct (members (String.append "on" (proto_name event))) as [[h|v]|] eqn:E.
  - rewrite (apply_with_handler _ _ _ _ _ E). unfold invoke.
    destruct isFromHistory.
    + destruct (h event (this w)) as [r a']. now intros [= _ <-].
    + destruct (h event (this (recorded event w))) as [r a']. now intros [= _ <-].
  - rewrite apply_without_handler by (intros h; congruence). discriminate.
  - rewrite apply_without_handler by (intros h; congruence). discriminate.
Qed.

(** X2. When the handler of an event raises during a replay,
    [loadFromHistory] raises the same error and stops there: the instance
    is the one the raising handler left, the event is not pushed on the
    loaded events by the engine, and no later event is dispatched. *)
Theorem loadFromHistory_stops_at_raise (members : Members)
    (before rest : list Event) (event : Event) (t : Thrown) (w w1 w2 : Instance) :
  loadFromHistory members before w = (Ok tt, w1) ->
  apply members event true w1 = (Throw t, w2) ->
  loadFromHistory members (before ++ event :: rest) w = (Throw t, w2)
  /\ calls w2 = calls w1 ++ [(String.append "on" (proto_name event), event)].
Proof.
  intros Hbefore Hraise. split.
  - unfold loadFromHistory in *. rewrite forEach_app.
    rewrite (bind_ok _ _ _ _ _ Hbefore). simpl.
    apply bind_throw. now apply bind_throw.
  - now apply (apply_raises_through_handler _ _ _ _ _ _ Hraise).
Qed.

Lemma loadFromHistory_stops_at_raise_witness :
  loadFromHistory Strict [Created "id-01" "2022-04-11"] (fresh "a1")
  = (Ok tt, snd (loadFromHistory Strict [Created "id-01" "2022-04-11"] (fresh "a1")))
  /\ fst (loadFromHistory Strict
            ([Created "id-01" "2022-04-11"] ++ named "Rejected" :: [Updated]) (fresh "a1"))
     = Throw (ErrorObject (new_Error "rejected"))
  /\ INTERNAL_EVENTS_HISTORY
       (this (snd (loadFromHistory Strict
            ([Created "id-01" "2022-04-11"] ++ named "Rejected" :: [Updated]) (fresh "a1"))))
     = [Created "id-01" "2022-04-11"].
Proof.
  split; [reflexivity|].
  pose proof (loadFromHistory_stops_at_raise Strict
                [Created "id-01" "2022-04-11"] [Updated] (named "Rejected")
                (ErrorObject (new_Error "rejected")) (fresh "a1")
                (snd (loadFromHistory Strict [Created "id-01" "2022-04-11"] (fresh "a1")))
                (snd (apply Strict (named "Rejected") true
                        (snd (loadFromHistory Strict [Created "id-01" "2022-04-11"]
                                (fresh "a1")))))
                eq_refl eq_refl) as [H _].
  rewrite H. split; reflexivity.
Defined.

(** X3. [apply(event)] pushes the event before it calls the handler, so
    when the handler raises, [apply] raises the same error with the event
    already pending: a handler that leaves the buffer alone leaves the
    event at its end. *)
Theorem apply_records_before_handler_raises (members : Members) (event : Event)
    (h : EventHandler) (t : Thrown) (a' : Aggregate) (w : Instance) :
  members (String.append "on" (proto_name event)) = Some (Method h) ->
  h event (this (recorded event w)) = (Throw t, a') ->
  apply members event false w
  = (Throw t, {| this := a';
                 calls := calls w ++ [(String.append "on" (proto_name event), event)] |})
  /\ (keeps_uncommitted h ->
      uncommitted (snd (apply members event false w)) = uncommitted w ++ [event]).
Proof.
  intros Hm Hh. rewrite (apply_with_handler _ _ _ _ _ Hm). unfold invoke.
  split.
  - now rewrite Hh.
  - intros Hkeep. specialize (Hkeep event (this (recorded event w))).
    destruct (h event (this (recorded event w))) as [r a1]. exact Hkeep.
Qed.

Lemma apply_records_before_handler_raises_witness :
  Strict (String.append "on" (proto_name (named "Rejected"))) = Some (Method onRejected)
  /\ fst (apply Strict (named "Rejected") false (fresh "a1"))
     = Throw (ErrorObject (new_Error "rejected"))
  /\ uncommitted (snd (apply Strict (named "Rejected") false (fresh "a1")))
     = [named "Rejected"].
Proof.
  split; [reflexivity|].
  destruct (apply_records_before_handler_raises Strict (named "Rejected") onRejected
              (ErrorObject (new_Error "rejected"))
              (snd (onRejected (named "Rejected")
                      (this (recorded (named "Rejected") (fresh "a1")))))
              (fresh "a1") eq_refl eq_refl) as [H K].
  split.
  - now rewrite H.
  - apply K. intros e a. reflexivity.
Defined.

(** X4. When handlers leave the uncommitted buffer alone, the events
    applied (not from history) since the last [commit] are pending in the
    order of the calls, one entry per call, also when handlers raised and
    the caller went on. *)
Theorem applied_events_pending_in_call_order (members : Members)
    (closures : Closures) (applied : list Event) (w : Instance) :
  every_handler keeps_uncommitted members ->
  uncommitted (session members closures (map (fun e => OpApply e false) applied) w)
  = uncommitted w ++ applied
  /\ uncommitted (session members closures
                    (OpCommit :: map (fun e => OpApply e false) applied) w)
     = applied
  /\ length (uncommitted
               (session members closures
                  (OpCommit :: map (fun e => OpApply e false) applied) w))
     = length applied.
Proof.
  intros Hm.
  assert (forall w0,
            uncommitted (session members closures
                           (map (fun e => OpApply e false) applied) w0)
            = uncommitted w0 ++ applied) as Hrun.
  { induction applied as [|e applied IH]; intros w0.
    - simpl. now rewrite app_nil_r.
    - change (session members closures (map (fun e => OpApply e false) (e :: applied)) w0)
        with (session members closures (map (fun e => OpApply e false) applied)
                (snd (apply members e false w0))).
      rewrite IH, (apply_uncommitted _ _ _ _ Hm). now rewrite <- app_assoc. }
  split; [apply Hrun|].
  change (session members closures (OpCommit :: map (fun e => OpApply e false) applied) w)
    with (session members closures (map (fun e => OpApply e false) applied)
            (snd (commit w))).
  rewrite Hrun. now split.
Qed.

Lemma applied_events_pending_in_call_order_witness :
  every_handler keeps_uncommitted TestAggregate
  /\ uncommitted
       (session TestAggregate Loader
          (OpCommit :: map (fun e => OpApply e false)
                         [Updated; Created "id-01" "2022-04-11"; Updated])
          (recorded Updated (fresh "a1")))
     = [Updated; Created "id-01" "2022-04-11"; Updated].
Proof.
  split; [exact TestAggregate_keeps_uncommitted|].
  apply (applied_events_pending_in_call_order TestAggregate Loader
           [Updated; Created "id-01" "2022-04-11"; Updated]
           (recorded Updated (fresh "a1")) TestAggregate_keeps_uncommitted).
Defined.

(** *** Replay through nodes and the projected state *)

Lemma forEach_simulation {S A B} (R : S -> S -> Prop) (g : A -> B)
    (f1 : A -> M S unit) (f2 : B -> M S unit) (l : list A) :
  (forall x s1 s2, R s1 s2 ->
     exists s1' s2', f1 x s1 = (Ok tt, s1') /\ f2 (g x) s2 = (Ok tt, s2') /\ R s1' s2') ->
  forall s1 s2, R s1 s2 ->
    exists s1' s2',
      forEach l f1 s1 = (Ok tt, s1') /\ forEach (map g l) f2 s2 = (Ok tt, s2')
      /\ R s1' s2'.
Proof.
  intros Hstep. induction l as [|x l IH]; intros s1 s2 HR.
  - exists s1, s2. now repeat split.
  - destruct (Hstep x s1 s2 HR) as (m1 & m2 & E1 & E2 & HR').
    destruct (IH m1 m2 HR') as (s1' & s2' & F1 & F2 & HR'').
    exists s1', s2'. simpl.
    rewrite (bind_ok _ _ _ _ _ E1), (bind_ok _ _ _ _ _ E2). now repeat split.
Qed.

Lemma apply_from_history_state members event w1 w2 :
  every_handler projects_state members ->
  every_handler reads_state_only members ->
  state (this w1) = state (this w2) ->
  exists w1' w2',
    apply members event true w1 = (Ok tt, w1')
    /\ apply members event true w2 = (Ok tt, w2')
    /\ state (this w1') = state (this w2').
Proof.
  intros Hp Hs HR.
  destruct (apply_from_history members event w1 Hp) as (w1' & E1 & _).
  destruct (apply_from_history members event w2 Hp) as (w2' & E2 & _).
  exists w1', w2'. split; [exact E1|]. split; [exact E2|].
  destruct (members (String.append "on" (proto_name event))) as [[h|v]|] eqn:E.
  - rewrite (apply_with_handler _ _ _ _ _ E) in E1.
    rewrite (apply_with_handler _ _ _ _ _ E) in E2. unfold invoke in E1, E2.
    pose proof (Hs _ _ E event (this w1) (this w2) HR) as Hagree.
    destruct (h event (this w1)) as [r1 a1]. destruct (h event (this w2)) as [r2 a2].
    injection E1 as _ <-. injection E2 as _ <-. exact Hagree.
  - rewrite apply_without_handler in E1 by (intros h; congruence).
    rewrite apply_without_handler in E2 by (intros h; congruence).
    injection E1 as <-. injection E2 as <-. exact HR.
  - rewrite apply_without_handler in E1 by (intros h; congruence).
    rewrite apply_without_handler in E2 by (intros h; congruence).
    injection E1 as <-. injection E2 as <-. exact HR.
Qed.

(** X5. When handlers project state from the event and the state alone,
    [loadFromEventNodes(nodes)] leaves the state that replaying the
    nodes' events twice over with [loadFromHistory] leaves: every handler
    effect is applied once per pass, the second pass starting from the
    state the first one built. *)
Theorem loadFromEventNodes_state_of_double_replay (members : Members)
    (nodes : list IEventNode) (w : Instance) :
  every_handler projects_state members ->
  every_handler reads_state_only members ->
  state (this (snd (loadFromEventNodes members nodes w)))
  = state (this (snd (loadFromHistory members
                        (map event_of nodes ++ map event_of nodes) w))).
Proof.
  intros Hp Hs.
  set (R := fun w1 w2 : Instance => state (this w1) = state (this w2)).
  destruct (forEach_simulation R event_of
              (fun node =>
                 apply members (event_of node) true >>
                 modify (on_this (fun a =>
                   set_INTERNAL_EVENTS_NODES_HISTORY
                     (INTERNAL_EVENTS_NODES_HISTORY a ++ [node]) a)))
              (fun event =>
                 apply members event true >>
                 modify (on_this (fun a =>
                   set_INTERNAL_EVENTS_HISTORY (INTERNAL_EVENTS_HISTORY a ++ [event]) a)))
              nodes) with (s1 := w) (s2 := w) as (m1 & m2 & E1 & E2 & HR).
  { intros node s1 s2 H12.
    destruct (apply_from_history_state members (event_of node) s1 s2 Hp Hs H12)
      as (s1' & s2' & A1 & A2 & H').
    eexists. eexists.
    rewrite (bind_ok _ _ _ _ _ A1), (bind_ok _ _ _ _ _ A2).
    split; [reflexivity|]. split; [reflexivity|]. exact H'. }
  { reflexivity. }
  destruct (forEach_simulation R (fun e : Event => e)
              (fun event =>
                 apply members event true >>
                 modify (on_this (fun a =>
                   set_INTERNAL_EVENTS_HISTORY (INTERNAL_EVENTS_HISTORY a ++ [event]) a)))
              (fun event =>
                 apply members event true >>
                 modify (on_this (fun a =>
                   set_INTERNAL_EVENTS_HISTORY (INTERNAL_EVENTS_HISTORY a ++ [event]) a)))
              (map event_of nodes)) with (s1 := m1) (s2 := m2) as (n1 & n2 & F1 & F2 & HR').
  { intros event s1 s2 H12.
    destruct (apply_from_history_state members event s1 s2 Hp Hs H12)
      as (s1' & s2' & A1 & A2 & H').
    eexists. eexists.
    rewrite (bind_ok _ _ _ _ _ A1), (bind_ok _ _ _ _ _ A2).
    split; [reflexivity|]. split; [reflexivity|]. exact H'. }
  { exact HR. }
  rewrite map_id in F2.
  unfold loadFromEventNodes. rewrite (bind_ok _ _ _ _ _ E1).
  unfold loadFromHistory at 2. rewrite forEach_app, (bind_ok _ _ _ _ _ E2).
  unfold loadFromHistory. rewrite F1, F2. exact HR'.
Qed.

Lemma loadFromEventNodes_state_of_double_replay_witness :
  every_handler projects_state Counter
  /\ every_handler reads_state_only Counter
  /\ state (this (snd (loadFromEventNodes Counter
                         [mkNode (named "Counted") (mkMeta "n1" 0);
                          mkNode (named "Counted") (mkMeta "n2" 1)] (fresh "a1"))))
     = state (this (snd (loadFromHistory Counter
                           (map event_of [mkNode (named "Counted") (mkMeta "n1" 0);
                                          mkNode (named "Counted") (mkMeta "n2" 1)]
                            ++ map event_of [mkNode (named "Counted") (mkMeta "n1" 0);
                                             mkNode (named "Counted") (mkMeta "n2" 1)])
                           (fresh "a1")))).
Proof.
  split; [exact Counter_projects_state|]. split; [exact Counter_reads_state_only|].
  apply (loadFromEventNodes_state_of_double_replay Counter _ (fresh "a1")
           Counter_projects_state Counter_reads_state_only).
Defined.

(** Two nodes, four counted calls. *)
Example loadFromEventNodes_counts_twice :
  count_of (state (this (snd (loadFromEventNodes Counter
                                [mkNode (named "Counted") (mkMeta "n1" 0);
                                 mkNode (named "Counted") (mkMeta "n2" 1)] (fresh "a1")))))
  = 4%Z.
Proof. reflexivity. Qed.

(** * Further properties of the test toolkit *)

Lemma decides_ret {S} (s : S) : decides (ret tt) s True.
Proof. now split. Qed.

Lemma decides_throw {S} (t : Thrown) (s : S) : decides (throw t) s False.
Proof. split; [reflexivity|]. split; [discriminate | intros []]. Qed.

Lemma decides_iff {S} (c : M S unit) (s : S) (P Q : Prop) :
  decides c s P -> (P <-> Q) -> decides c s Q.
Proof. intros [Hs Hr] HPQ. split; [exact Hs|]. now rewrite Hr. Qed.

Lemma decides_when {S} (b : bool) (body : M S unit) (s : S) (P : Prop) :
  decides body s P -> decides (when_ b body) s (b = true -> P).
Proof.
  intros [Hs Hr]. destruct b; simpl.
  - split; [exact Hs|]. rewrite Hr. split; [intros H _; exact H | intros H; now apply H].
  - split; [reflexivity|]. split; [discriminate | reflexivity].
Qed.

Lemma decides_guard {S} (b : bool) (body : M S unit) (s : S) :
  decides body s False -> decides (when_ b body) s (b = false).
Proof.
  intros H. apply (decides_iff _ _ _ _ (decides_when b body s False H)).
  destruct b; split; congruence.
Qed.

Lemma decides_bind {S} (c1 c2 : M S unit) (s : S) (P Q : Prop) :
  decides c1 s P -> decides c2 s Q -> decides (c1 >> c2) s (P /\ Q).
Proof.
  intros [Hs1 Hr1] [Hs2 Hr2]. unfold decides, bind.
  destruct (c1 s) as [[[]|t] s1]; simpl in *; subst s1.
  - split; [exact Hs2|]. rewrite Hr2. split; [intros H; split; [now apply Hr1 | exact H] | now intros [_ H]].
  - split; [reflexivity|]. split; [discriminate|]. intros [H _]. apply Hr1 in H. discriminate.
Qed.

Lemma decides_forEach {S A} (P : A -> Prop) (l : list A) (f : A -> M S unit) (s : S) :
  (forall x, decides (f x) s (P x)) ->
  decides (forEach l f) s (forall x, In x l -> P x).
Proof. intros H. now apply forEach_decides. Qed.

Lemma bind_gets {S A B} (f : S -> A) (k : A -> M S B) (s : S) :
  bind (gets f) k s = k (f s) s.
Proof. reflexivity. Qed.

Lemma bind_ret {S A B} (a : A) (k : A -> M S B) (s : S) :
  bind (ret a) k s = k a s.
Proof. reflexivity. Qed.

Lemma bind_modify {S B} (f : S -> S) (k : unit -> M S B) (s : S) :
  bind (modify f) k s = k tt (f s).
Proof. reflexivity. Qed.

Lemma bind_getUncommittedEvents {B} (k : list Event -> M Check B) (c : Check) :
  bind (on_aggregate getUncommittedEvents) k c
  = k (uncommitted (aggregate c)) (set_aggregate (aggregate c) c).
Proof. reflexivity. Qed.

Lemma set_aggregate_same (c : Check) : set_aggregate (aggregate c) c = c.
Proof. now destruct c. Qed.

Lemma decides_throwError colors text received wanted (c : Check) :
  decides (throwError colors text received wanted) c False.
Proof. apply decides_throw. Qed.

Lemma decides_bind_fail {S} (c1 c2 : M S unit) (s : S) :
  decides c1 s False -> decides (c1 >> c2) s False.
Proof.
  intros [Hs Hr]. unfold decides, bind.
  destruct (c1 s) as [[[]|t] s1]; simpl in *; subst s1.
  - now destruct (proj1 Hr eq_refl).
  - split; [reflexivity|]. split; [discriminate | intros []].
Qed.

Lemma count_is_one (x : nat) :
  (x <? 1)%nat = false /\ (1 <? x)%nat = false <-> x = 1.
Proof. rewrite !Nat.ltb_ge. lia. Qed.

Lemma names_differ_false (a b : string) :
  negb (String.eqb a b) = false <-> Some a = Some b.
Proof.
  rewrite negb_false_iff, String.eqb_eq. split; [now intros -> | now intros [= ->]].
Qed.

Lemma assertEvent_verdict colors JSON_stringify (c : Check) :
  snd (assertEvent colors JSON_stringify c) = after_assertEvent colors JSON_stringify c
  /\ (fst (assertEvent colors JSON_stringify c) = Ok tt <-> expectation_met c).
Proof.
  unfold assertEvent. rewrite bind_getUncommittedEvents, set_aggregate_same.
  rewrite !bind_gets.
  unfold after_assertEvent, expectation_met, armed.
  set (buffer := uncommitted (aggregate c)).
  assert (forall (rest : M Check unit) (P : Prop),
            decides rest
              (if Array_includes (flags c) "debug"
               then console_log (debug_output colors JSON_stringify buffer (events c)) c
               else c) P ->
            snd ((when_ (Array_includes (flags c) "debug")
                    (modify (console_log
                               (debug_output colors JSON_stringify buffer (events c))))
                  >> rest) c)
            = (if Array_includes (flags c) "debug"
               then console_log (debug_output colors JSON_stringify buffer (events c)) c
               else c)
            /\ (fst ((when_ (Array_includes (flags c) "debug")
                        (modify (console_log
                                   (debug_output colors JSON_stringify buffer (events c))))
                      >> rest) c) = Ok tt <-> P)) as Hdebug.
  { intros rest P. destruct (Array_includes (flags c) "debug"); simpl.
    - rewrite bind_modify. now intros [Hs Hr].
    - rewrite bind_ret. now intros [Hs Hr]. }
  apply Hdebug. clear Hdebug.
  generalize (if Array_includes (flags c) "debug"
              then console_log (debug_output colors JSON_stringify buffer (events c)) c
              else c). intros s.
  clearbody buffer.
  destruct (Array_includes (flags c) "excludes") eqn:Hex.
  - eapply decides_iff.
    + eapply decides_bind; [eapply decides_guard, decides_throwError|].
      eapply decides_forEach. intros t. eapply decides_guard, decides_throwError.
    + cbv beta. split.
      * intros [Hlen Hall]. split; [now destruct buffer|].
        intros t Ht. specialize (Hall t Ht). rewrite occurances_occurrences in Hall.
        now apply negb_false_iff, Nat.eqb_eq in Hall.
      * intros [Hne Hall]. split; [now destruct buffer|].
        intros t Ht. rewrite occurances_occurrences, (Hall t Ht). reflexivity.
  - destruct buffer as [|e0 b].
    + eapply decides_iff.
      * apply decides_bind_fail. apply decides_throwError.
      * split; [intros [] | now intros [H _]].
    + destruct (last (e0 :: b)) as [el|] eqn:Hlast;
        [|apply last_None in Hlast; discriminate].
      eapply decides_iff.
      * eapply decides_bind; [eapply decides_guard, decides_throwError|].
        eapply decides_bind;
          [eapply decides_when, decides_forEach; intros t;
           eapply decides_guard, decides_throwError|].
        eapply decides_bind;
          [eapply decides_when, decides_forEach; intros t;
           eapply decides_bind; eapply decides_guard, decides_throwError|].
        eapply decides_bind;
          [eapply decides_when, decides_forEach; intros t;
           eapply decides_guard, decides_throwError|].
        eapply decides_bind;
          [eapply decides_when, decides_forEach; intros t;
           eapply decides_guard, decides_throwError|].
        eapply decides_when, decides_forEach; intros t.
        eapply decides_guard, decides_throwError.
      * cbv beta. unfold type_of, getEventProtoName. simpl head. simpl fmap.
        split.
        -- intros (_ & Hx & Ho & Hf & Hl & Hh). split; [discriminate|].
           split; [|split; [|split; [|split]]].
           ++ intros A t Ht. specialize (Hx A t Ht).
              rewrite occurances_occurrences in Hx.
              now apply negb_false_iff, Z.eqb_eq in Hx.
           ++ intros A t Ht. specialize (Ho A t Ht).
              rewrite occurances_occurrences in Ho. now apply count_is_one.
           ++ intros A t Ht. now apply names_differ_false, Hf.
           ++ intros A t Ht. now apply names_differ_false, Hl.
           ++ intros A B C t Ht. rewrite A, B, C in Hh. specialize (Hh eq_refl t Ht).
              rewrite occurances_occurrences in Hh. now apply Nat.eqb_neq.
        -- intros (_ & Hx & Ho & Hf & Hl & Hh). split; [reflexivity|].
           split; [|split; [|split; [|split]]].
           ++ intros A t Ht. rewrite occurances_occurrences.
              now apply negb_false_iff, Z.eqb_eq, Hx.
           ++ intros A t Ht. rewrite occurances_occurrences.
              now apply count_is_one, Ho.
           ++ intros A t Ht. now apply names_differ_false, Hf.
           ++ intros A t Ht. now apply names_differ_false, Hl.
           ++ intros A t Ht. rewrite occurances_occurrences.
              apply andb_prop in A as [A C]. apply andb_prop in A as [A B].
              apply negb_true_iff in B, C. now apply Nat.eqb_neq, Hh.
Qed.

Lemma events_runs colors JSON_stringify (targets : EventClass + list EventClass)
    (c : Check) :
  events_ colors JSON_stringify targets c
  = assertEvent colors JSON_stringify
      (set_events (match targets with inl e => [e] | inr l => l end) c).
Proof. reflexivity. Qed.

(** X6. [event(e)] and [events(list)] succeed exactly when the
    uncommitted buffer is not empty and meets what the armed flags ask of
    every target: with [excludes], no occurrence; otherwise [exactly] the
    set count, [one] a single occurrence, [first] and [last] the type of
    the first and of the last pending event, and [has] at least one
    occurrence, asked only when neither [one] nor [exactly] is armed. *)
Theorem events_succeed_iff (colors : Colors) (JSON_stringify : Event -> string)
    (targets : EventClass + list EventClass) (c : Check) :
  fst (events_ colors JSON_stringify targets c) = Ok tt
  <-> expectation_met (set_events (match targets with inl e => [e] | inr l => l end) c).
Proof. rewrite events_runs. apply assertEvent_verdict. Qed.

(** X7. An evaluation reads the aggregate and writes nothing to it:
    whatever its verdict, the aggregate, the flags, the count expectation
    and the expected message are as before, the targets are the ones just
    given, and the console has one more line when [debug] is armed and
    none otherwise. *)
Theorem events_only_record_and_print (colors : Colors)
    (JSON_stringify : Event -> string)
    (targets : EventClass + list EventClass) (c : Check) :
  aggregate (snd (events_ colors JSON_stringify targets c)) = aggregate c
  /\ flags (snd (events_ colors JSON_stringify targets c)) = flags c
  /\ occuranceExpectation (snd (events_ colors JSON_stringify targets c))
     = occuranceExpectation c
  /\ withMessage (snd (events_ colors JSON_stringify targets c)) = withMessage c
  /\ events (snd (events_ colors JSON_stringify targets c))
     = match targets with inl e => [e] | inr l => l end
  /\ console (snd (events_ colors JSON_stringify targets c))
     = console c
       ++ (if armed "debug" c
           then [debug_output colors JSON_stringify (uncommitted (aggregate c))
                   (match targets with inl e => [e] | inr l => l end)]
           else []).
Proof.
  rewrite events_runs.
  rewrite (proj1 (assertEvent_verdict colors JSON_stringify _)).
  unfold after_assertEvent, armed. simpl.
  destruct (Array_includes (flags c) "debug"); simpl; rewrite ?app_nil_r; now repeat split.
Qed.

Lemma armed_after_debug (flag : string) (c : Check) :
  String.eqb flag "debug" = false ->
  Array_includes (flags c ++ ["debug"%string]) flag = Array_includes (flags c) flag.
Proof.
  intros H. unfold Array_includes. rewrite existsb_app. simpl.
  rewrite H. now rewrite !orb_false_r.
Qed.

(** X8. Arming [debug] does not change a verdict: the evaluation succeeds
    with [debug] armed exactly when it succeeds without. *)
Theorem debug_keeps_the_verdict (colors : Colors) (JSON_stringify : Event -> string)
    (targets : EventClass + list EventClass) (c : Check) :
  fst ((debug >> events_ colors JSON_stringify targets) c) = Ok tt
  <-> fst (events_ colors JSON_stringify targets c) = Ok tt.
Proof.
  unfold debug, push_flag. rewrite bind_modify, !events_runs.
  rewrite (proj2 (assertEvent_verdict colors JSON_stringify _)).
  rewrite (proj2 (assertEvent_verdict colors JSON_stringify _)).
  unfold expectation_met, armed. simpl.
  rewrite !armed_after_debug by reflexivity. reflexivity.
Qed.

(** X9. Events replayed into the aggregate through [loads] are no part of
    what expectations see: when handlers project state, an evaluation
    after [loads(history)] has the verdict it has without it. *)
Theorem loads_does_not_feed_expectations (colors : Colors)
    (JSON_stringify : Event -> string) (members : Members)
    (history : list Event) (targets : EventClass + list EventClass) (c : Check) :
  every_handler projects_state members ->
  fst ((loads members history >> events_ colors JSON_stringify targets) c) = Ok tt
  <-> fst (events_ colors JSON_stringify targets c) = Ok tt.
Proof.
  intros Hm.
  destruct (loadFromHistory_replays members history Hm (aggregate c))
    as (w' & Hload & Hbuf & _).
  assert (loads members history c = (Ok tt, set_aggregate w' c)) as Hloads.
  { unfold loads, on_aggregate, zoom. now rewrite Hload. }
  rewrite (bind_ok _ _ _ _ _ Hloads), !events_runs.
  rewrite (proj2 (assertEvent_verdict colors JSON_stringify _)).
  rewrite (proj2 (assertEvent_verdict colors JSON_stringify _)).
  unfold expectation_met, armed, uncommitted. simpl. rewrite Hbuf. reflexivity.
Qed.

Lemma loads_does_not_feed_expectations_witness :
  every_handler projects_state TestAggregate
  /\ fst ((loads TestAggregate [Created "id-01" "2022-04-11"]
           >> has >> event plain stringify (mkEventClass "Created"))
            (check (fresh "a1") []))
     = Throw (failure plain
                "There are no events in the aggregate event stream to evaluate."
                "0" "1 or more")
  /\ (fst ((loads TestAggregate [Created "id-01" "2022-04-11"]
            >> events_ plain stringify (inl (mkEventClass "Created")))
             (snd (has (check (fresh "a1") [])))) = Ok tt
      <-> fst (events_ plain stringify (inl (mkEventClass "Created"))
                 (snd (has (check (fresh "a1") [])))) = Ok tt).
Proof.
  split; [exact TestAggregate_projects_state|]. split; [reflexivity|].
  apply (loads_does_not_feed_expectations plain stringify TestAggregate).
  exact TestAggregate_projects_state.
Defined.

(** X10. With [first] armed (and [excludes] not), targets of two
    different types cannot pass together, and the same holds for [last]:
    every target is held against the one first, or last, pending event. *)
Theorem first_or_last_with_two_types_fails (colors : Colors)
    (JSON_stringify : Event -> string) (targets : list EventClass)
    (t1 t2 : EventClass) (c : Check) :
  armed "excludes" c = false ->
  armed "first" c = true \/ armed "last" c = true ->
  In t1 targets -> In t2 targets -> name t1 <> name t2 ->
  fst (events_ colors JSON_stringify (inr targets) c) <> Ok tt.
Proof.
  intros Hex Harmed H1 H2 Hne Hok.
  rewrite events_runs in Hok.
  apply (proj2 (assertEvent_verdict colors JSON_stringify _)) in Hok.
  unfold expectation_met, armed in *. simpl in Hok. rewrite Hex in Hok.
  destruct Hok as (_ & _ & _ & Hf & Hl & _).
  destruct Harmed as [A|A].
  - pose proof (Hf A t1 H1) as E1. pose proof (Hf A t2 H2) as E2. congruence.
  - pose proof (Hl A t1 H1) as E1. pose proof (Hl A t2 H2) as E2. congruence.
Qed.

Lemma first_or_last_with_two_types_fails_witness :
  armed "excludes" (snd ((when plain (applyEvent plain_AggregateRoot (named "First"))
                          >> has >> first) (check (fresh "a1") []))) = false
  /\ fst (events_ plain stringify
            (inr [mkEventClass "First"; mkEventClass "Second"])
            (snd ((when plain (applyEvent plain_AggregateRoot (named "First"))
                   >> has >> first) (check (fresh "a1") [])))) <> Ok tt.
Proof.
  split; [reflexivity|].
  apply (first_or_last_with_two_types_fails plain stringify
           [mkEventClass "First"; mkEventClass "Second"]
           (mkEventClass "First") (mkEventClass "Second"));
    [reflexivity | left; reflexivity | now left | right; now left | discriminate].
Defined.



(** X12. With [one] armed (and neither [excludes] nor [exactly]), on a
    buffer that is not empty, a target that does not occur raises the "was
    not found" error and a target that occurs more than once raises the
    "occurs more than once" error; both report the count found against
    1. *)
Theorem one_reports_missing_or_repeated (colors : Colors)
    (JSON_stringify : Event -> string) (target : EventClass) (c : Check) :
  armed "one" c = true ->
  armed "excludes" c = false ->
  armed "exactly" c = false ->
  uncommitted (aggregate c) <> [] ->
  (occurrences target (uncommitted (aggregate c)) = 0 ->
   fst (event colors JSON_stringify target c)
   = Throw (failure colors
              ("Event '" ++ name target ++ "' was not found in the aggregate event stream.")
              "0" "1"))
  /\ (1 < occurrences target (uncommitted (aggregate c)) ->
      fst (event colors JSON_stringify target c)
      = Throw (failure colors
                 ("Event '" ++ name target
                  ++ "' occurs more than once in the aggregate event stream.")
                 (nat_to_string (occurrences target (uncommitted (aggregate c)))) "1")).
Proof.
  destruct c as [fl evs n wm [a cl] out]. unfold armed, uncommitted. simpl.
  intros Ho Hex Hx Hne.
  unfold event, addEvents, assertEvent, on_aggregate, getUncommittedEvents.
  unfold bind, modify, gets, zoom. simpl. rewrite Hex, Hx, Ho.
  pose proof (occurances_occurrences target (INTERNAL_EVENTS a)) as Hocc.
  rewrite Hocc. clear Hocc.
  destruct (INTERNAL_EVENTS a) as [|e buffer]; [congruence|].
  split.
  - intros ->. simpl. now destruct (Array_includes fl "debug").
  - intros Hmany.
    assert ((occurrences target (e :: buffer) <? 1)%nat = false) as H1
      by (apply Nat.ltb_ge; lia).
    assert ((1 <? occurrences target (e :: buffer))%nat = true) as H2
      by (now apply Nat.ltb_lt).
    rewrite H1, H2. simpl. now destruct (Array_includes fl "debug").
Qed.

Lemma one_reports_missing_or_repeated_witness :
  armed "one"
    (snd ((when plain (applyEvent plain_AggregateRoot (named "Updated"))
           >> when plain (applyEvent plain_AggregateRoot (named "Updated"))
           >> has >> one) (check (fresh "a1") []))) = true
  /\ fst (event plain stringify (mkEventClass "Updated")
            (snd ((when plain (applyEvent plain_AggregateRoot (named "Updated"))
                   >> when plain (applyEvent plain_AggregateRoot (named "Updated"))
                   >> has >> one) (check (fresh "a1") []))))
     = Throw (failure plain
                "Event 'Updated' occurs more than once in the aggregate event stream."
                "2" "1").
Proof.
  split; [reflexivity|].
  apply (one_reports_missing_or_repeated plain stringify (mkEventClass "Updated")
           (snd ((when plain (applyEvent plain_AggregateRoot (named "Updated"))
                  >> when plain (applyEvent plain_AggregateRoot (named "Updated"))
                  >> has >> one) (check (fresh "a1") []))));
    [reflexivity | reflexivity | reflexivity | discriminate |].
  change (1 < 2). lia.
Defined.

(** *** Field inclusion, further *)

Lemma keeps_when {S X} (g : S -> X) (b : bool) (body : M S unit) :
  keeps g body -> keeps g (when_ b body).
Proof. intros H. destruct b; [exact H | apply keeps_ret]. Qed.

Lemma assertProp_keeps colors String_ contain mismatch event params prop :
  keeps (fun c : Check => c)
    (assertProp colors String_ contain mismatch event params prop).
Proof. intros c. apply assertProp_agrees. Qed.

(** X13. With [last] armed and a target recorded, [includes(params)]
    looks at the last pending event alone, of whatever type: it succeeds
    exactly when that event agrees with [params] on every property of
    [params], and on an empty buffer it raises the TypeError of reading
    the prototype of [undefined]. *)
Theorem includes_with_last_reads_the_last_event (colors : Colors)
    (String_ : Value -> string) (contain : list Value -> list Value -> bool)
    (params : list (string * Value)) (c : Check) :
  armed "last" c = true ->
  events c <> [] ->
  (uncommitted (aggregate c) = [] ->
   fst (includes colors String_ contain params c) = Throw TypeError_undefined)
  /\ (forall u, last (uncommitted (aggregate c)) = Some u ->
        (fst (includes colors String_ contain params c) = Ok tt
         <-> forall prop, In prop (map fst params) ->
                          agrees contain u params prop = true)).
Proof.
  unfold armed. intros Hlast Htargets.
  unfold includes, assertEventParams. rewrite !bind_gets.
  destruct (events c) as [|t0 targets] eqn:Hev; [congruence|].
  cbn [length Nat.eqb when_]. rewrite bind_ret, bind_getUncommittedEvents.
  rewrite set_aggregate_same, Hlast.
  destruct (last (t0 :: targets)) as [target|] eqn:Ht;
    [|apply last_None in Ht; discriminate].
  split.
  - intros ->. reflexivity.
  - intros u ->.
    apply (forEach_decides (fun prop => agrees contain u params prop = true)).
    intros prop. apply assertProp_agrees.
Qed.

Lemma includes_with_last_reads_the_last_event_witness :
  armed "last"
    (snd ((when plain (applyEvent plain_AggregateRoot (Renamed "yogi bear"))
           >> when plain (applyEvent plain_AggregateRoot (Renamed "yogi"))
           >> has >> last_ >> event plain stringify (mkEventClass "Renamed"))
            (check (fresh "a1") []))) = true
  /\ fst (includes plain show contains_all [("name", VStr "yogi")]%string
            (snd ((when plain (applyEvent plain_AggregateRoot (Renamed "yogi bear"))
                   >> when plain (applyEvent plain_AggregateRoot (Renamed "yogi"))
                   >> has >> last_ >> event plain stringify (mkEventClass "Renamed"))
                    (check (fresh "a1") [])))) = Ok tt.
Proof.
  split; [reflexivity|].
  apply (includes_with_last_reads_the_last_event plain show contains_all
           [("name", VStr "yogi")]%string
           (snd ((when plain (applyEvent plain_AggregateRoot (Renamed "yogi bear"))
                  >> when plain (applyEvent plain_AggregateRoot (Renamed "yogi"))
                  >> has >> last_ >> event plain stringify (mkEventClass "Renamed"))
                   (check (fresh "a1") [])))
           eq_refl) with (u := Renamed "yogi").
  - discriminate.
  - reflexivity.
  - intros prop [<-|[]]. reflexivity.
Defined.

(** With [last] armed too an inherited property is read off the
    prototype chain: the class is found under [constructor], so asking
    for it to be [undefined] fails. *)
Example includes_with_last_reads_inherited_properties :
  exists found,
    fst ((when plain (applyEvent plain_AggregateRoot (Renamed "yogi"))
          >> has >> last_ >> event plain stringify (mkEventClass "Renamed")
          >> that
          >> includes plain show contains_all [("constructor", VUndefined)]%string)
           (check (fresh "a1") []))
    = Throw (failure plain
               ("No matching property found on last event 'Renamed' for property "
                ++ "'constructor' with last aggregate event 'Renamed'")
               found "constructor - undefined").
Proof. eexists. reflexivity. Qed.

Lemma includes_keeps colors String_ contain params :
  keeps (fun c : Check => c) (includes colors String_ contain params).
Proof.
  intros c. unfold includes, assertEventParams. rewrite !bind_gets.
  destruct (events c) as [|t0 targets] eqn:Hev; [reflexivity|].
  cbn [length Nat.eqb when_]. rewrite bind_ret, bind_getUncommittedEvents.
  rewrite set_aggregate_same.
  destruct (Array_includes (flags c) "last").
  - destruct (last (t0 :: targets)) as [target|]; [|reflexivity].
    destruct (last (uncommitted (aggregate c))) as [u|]; [|reflexivity].
    apply (keeps_forEach (fun c : Check => c)). intros prop.
    apply assertProp_keeps.
  - apply (keeps_forEach (fun c : Check => c)). intros target.
    apply (keeps_forEach (fun c : Check => c)). intros u.
    apply keeps_when. apply (keeps_forEach (fun c : Check => c)). intros prop.
    apply assertProp_keeps.
Qed.

(** X14. [includes(params)] never changes the chain or the aggregate,
    whatever its outcome; and with no target recorded yet it raises the
    "No events listed" error, whatever the flags, the parameters and the
    buffer. *)
Theorem includes_is_read_only (colors : Colors)
    (String_ : Value -> string) (contain : list Value -> list Value -> bool)
    (params : list (string * Value)) (c : Check) :
  snd (includes colors String_ contain params c) = c
  /\ (events c = [] ->
      fst (includes colors String_ contain params c)
      = Throw (failure colors "No events listed - cannot assert event includes params"
                 "" "")).
Proof.
  split; [apply (includes_keeps colors String_ contain params c)|].
  intros Hev. unfold includes, assertEventParams. rewrite !bind_gets, Hev.
  reflexivity.
Qed.

(** *** Running operations *)

(** X15. [when(fn)] never raises, armed with [throws] or not: whether the
    operation returns or raises, [when] returns the chain, with the
    aggregate as the operation left it and the rest of the chain
    untouched. *)
Theorem when_never_raises (colors : Colors) (fn : WhenCallback) (c : Check) :
  when colors fn c = (Ok tt, set_aggregate (snd (fn (aggregate c))) c).
Proof.
  unfold when, assertWhen, async, as_AfterCallback, on_aggregate, zoom, try_catch.
  unfold bind, gets, ret. simpl.
  destruct (Array_includes (flags c) "throws");
    destruct (fn (aggregate c)) as [[[]|t] w']; simpl; try reflexivity.
  destruct (withMessage c) as [text|]; [|reflexivity].
  now destruct (truthy text && _).
Qed.

Lemma after_runs_on_the_aggregate colors (fns : list AfterCallback) :
  forall c : Check,
    Array_includes (flags c) "throws" = false ->
    forEach fns (fun func =>
      let* settled := assertWhen colors func true in await settled) c
    = (fst (forEach fns (fun func => let* pending := func in await pending)
              (aggregate c)),
       set_aggregate
         (snd (forEach fns (fun func => let* pending := func in await pending)
                 (aggregate c))) c).
Proof.
  induction fns as [|fn fns IH]; intros c Hplain.
  - simpl. now rewrite set_aggregate_same.
  - change (forEach (fn :: fns)
              (fun func => let* settled := assertWhen colors func true in await settled))
      with ((let* settled := assertWhen colors fn true in await settled) >>
            forEach fns
              (fun func => let* settled := assertWhen colors func true in await settled)).
    change (forEach (fn :: fns) (fun func => let* pending := func in await pending))
      with ((let* pending := fn in await pending) >>
            forEach fns (fun func => let* pending := func in await pending)).
    assert ((let* settled := assertWhen colors fn true in await settled) c
            = (fst ((let* pending := fn in await pending) (aggregate c)),
               set_aggregate (snd ((let* pending := fn in await pending) (aggregate c))) c))
      as Hone.
    { unfold assertWhen, async, on_aggregate, zoom, bind, gets, await, ret, throw.
      rewrite Hplain.
      destruct (fn (aggregate c)) as [[[[]|t]|t] w']; reflexivity. }
    destruct ((let* pending := fn in await pending) (aggregate c)) as [[[]|t] w'] eqn:E;
      cbn [fst snd] in Hone.
    + rewrite (bind_ok _ _ _ _ _ Hone), (bind_ok _ _ _ _ _ E).
      rewrite IH by exact Hplain. reflexivity.
    + rewrite (bind_throw _ _ _ _ _ Hone), (bind_throw _ _ _ _ _ E). reflexivity.
Qed.

(** X16. Without [throws], [after] runs the operations of its list one
    after the other on the aggregate, awaiting each: its promise resolves
    when every operation returns or resolves, and rejects with the error
    of the first operation that raises or rejects, the operations after
    that one not being run. *)
Theorem after_stops_at_the_first_failure (colors : Colors) (c : Check)
    (done_ rest : list AfterCallback) (fn : AfterCallback) (t : Thrown)
    (w1 w2 : Instance) :
  armed "throws" c = false ->
  forEach done_ (fun func => let* pending := func in await pending) (aggregate c)
  = (Ok tt, w1) ->
  fn w1 = (Throw t, w2) \/ fn w1 = (Ok (Rejected t), w2) ->
  after colors (inr done_) c = (Ok (Resolved tt), set_aggregate w1 c)
  /\ after colors (inr (done_ ++ fn :: rest)) c = (Ok (Rejected t), set_aggregate w2 c).
Proof.
  unfold armed. intros Hplain Hdone Hfn. unfold after, async. split.
  - rewrite (after_runs_on_the_aggregate colors done_ c Hplain), Hdone. reflexivity.
  - rewrite (after_runs_on_the_aggregate colors _ c Hplain), forEach_app.
    rewrite (bind_ok _ _ _ _ _ Hdone). simpl.
    assert ((let* pending := fn in await pending) w1 = (Throw t, w2)) as Hraise.
    { unfold bind. destruct Hfn as [-> | ->]; reflexivity. }
    rewrite (bind_throw _ _ _ _ _ Hraise). reflexivity.
Qed.

Lemma after_stops_at_the_first_failure_witness :
  armed "throws" (check (fresh "a1") []) = false
  /\ after plain
       (inr ([as_AfterCallback (applyEvent plain_AggregateRoot (named "Created"))]
             ++ as_AfterCallback verifyEmail
             :: [as_AfterCallback (applyEvent plain_AggregateRoot Updated)]))
       (check (fresh "a1") [])
     = (Ok (Rejected (ErrorObject (new_Error "token invalid"))),
        set_aggregate (recorded (named "Created") (fresh "a1")) (check (fresh "a1") [])).
Proof.
  split; [reflexivity|].
  apply (after_stops_at_the_first_failure plain (check (fresh "a1") [])
           [as_AfterCallback (applyEvent plain_AggregateRoot (named "Created"))]
           [as_AfterCallback (applyEvent plain_AggregateRoot Updated)]
           (as_AfterCallback verifyEmail)
           (ErrorObject (new_Error "token invalid"))
           (recorded (named "Created") (fresh "a1"))
           (recorded (named "Created") (fresh "a1")));
    [reflexivity | reflexivity | left; reflexivity].
Defined.

(** X17. With [throws] armed and no expected message set (or an empty
    one), [after] accepts whatever the operation raises, an [Error] or
    not; and what is raised without being an [Error] has the empty message,
    so that any expected text that is not empty rejects it. *)
Theorem throws_without_message_accepts_any_raise (colors : Colors) (c : Check)
    (fn : AfterCallback) (t : Thrown) (w' : Instance) :
  armed "throws" c = true ->
  fn (aggregate c) = (Throw t, w') \/ fn (aggregate c) = (Ok (Rejected t), w') ->
  (withMessage c = None \/ withMessage c = Some ""%string ->
   after colors (inl fn) c = (Ok (Resolved tt), set_aggregate w' c))
  /\ (forall v text, t = NonError v -> withMessage c = Some text -> text <> ""%string ->
      after colors (inl fn) c
      = (Ok (Rejected (failure colors "Expected error message did not match" "" text)),
         set_aggregate w' c)).
Proof.
  unfold armed. intros Harmed Hfn.
  pose proof (assertWhen_throws_armed_raise colors c fn t w' Harmed Hfn) as Hassert.
  assert (forall outcome,
            assertWhen colors fn true c = (Ok outcome, set_aggregate w' c) ->
            after colors (inl fn) c = (Ok outcome, set_aggregate w' c)) as Hafter.
  { intros outcome H. unfold after, async. simpl. unfold bind at 1.
    rewrite (bind_ok _ _ _ _ _ H). destruct outcome as [[]|]; reflexivity. }
  split.
  - intros [E | E]; rewrite E in Hassert; now apply Hafter.
  - intros v text -> E Hne. rewrite E in Hassert. apply Hafter. rewrite Hassert.
    destruct text as [|a text]; [congruence|]. reflexivity.
Qed.

Lemma throws_without_message_accepts_any_raise_witness :
  armed "throws" (snd (throws (check (fresh "a1") []))) = true
  /\ after plain (inl (throw (NonError (VStr "token invalid"))))
       (snd ((throws >> with_ "invalid") (check (fresh "a1") [])))
     = (Ok (Rejected (failure plain "Expected error message did not match" "" "invalid")),
        snd ((throws >> with_ "invalid") (check (fresh "a1") []))).
Proof.
  split; [reflexivity|].
  destruct (throws_without_message_accepts_any_raise plain
              (snd ((throws >> with_ "invalid") (check (fresh "a1") [])))
              (throw (NonError (VStr "token invalid")))
              (NonError (VStr "token invalid")) (fresh "a1") eq_refl
              (or_introl eq_refl)) as [_ H].
  apply (H (VStr "token invalid") "invalid"%string eq_refl eq_refl). discriminate.
Defined.

(** X18. [occurances(list, key)] is the number of entries of the list
    equal to the key: it adds over concatenation, is at most the length of
    the list, and is 0 exactly when the key is not in the list. *)
Theorem occurances_counts_the_key (names more : list string) (key : string) :
  occurances (names ++ more) key = occurances names key + occurances more key
  /\ occurances names key <= length names
  /\ (occurances names key = 0 <-> ~ In key names).
Proof.
  unfold occurances. rewrite !occurances_from. simpl.
  split; [|split].
  - rewrite List.filter_app, length_app. reflexivity.
  - apply List.filter_length_le.
  - induction names as [|n names IH]; simpl.
    + split; [intros _ [] | reflexivity].
    + destruct (String.eqb_spec n key) as [->|Hne]; simpl.
      * split; [discriminate | intros H; destruct H; now left].
      * rewrite IH. split; [intros H [E|E]; [congruence | now apply H] | intros H E; apply H; now right].
Qed.

(** X19. Right after [and], with no flag armed, an evaluation checks
    nothing about its targets: it succeeds on every buffer that is not
    empty, whatever types are asked for. *)
Theorem evaluation_without_flags_accepts_any_target (colors : Colors)
    (JSON_stringify : Event -> string)
    (targets : EventClass + list EventClass) (c : Check) :
  fst ((and_ >> events_ colors JSON_stringify targets) c) = Ok tt
  <-> uncommitted (aggregate c) <> [].
Proof.
  unfold and_. rewrite bind_modify, events_runs.
  rewrite (proj2 (assertEvent_verdict colors JSON_stringify _)).
  unfold expectation_met, armed. simpl.
  split; [now intros [H _] | intros H; split; [exact H|]].
  repeat split; discriminate.
Qed.

(** *** Flags *)

Lemma keeps_gets {S X A} (g : S -> X) (f : S -> A) : keeps g (gets f).
Proof. now intros s. Qed.

Lemma keeps_throw {S X A} (g : S -> X) (t : Thrown) : keeps g (throw (A := A) t).
Proof. now intros s. Qed.

Lemma keeps_async {S X A} (g : S -> X) (c : M S A) : keeps g c -> keeps g (async c).
Proof. intros H s. unfold async. specialize (H s). now destruct (c s) as [[a|t] s']. Qed.

Lemma keeps_try_catch {S X A} (g : S -> X) (c : M S A) (h : Thrown -> M S A) :
  keeps g c -> (forall t, keeps g (h t)) -> keeps g (try_catch c h).
Proof.
  intros Hc Hh s. unfold try_catch. specialize (Hc s).
  destruct (c s) as [[a|t] s']; simpl in *; [exact Hc|]. now rewrite Hh.
Qed.

Lemma keeps_await {S X A} (g : S -> X) (p : Promise A) : keeps g (await (S := S) p).
Proof. destruct p; now intros s. Qed.

Lemma keeps_flags_on_aggregate {A} (c : M Instance A) : keeps flags (on_aggregate c).
Proof. intros s. unfold on_aggregate, zoom. now destruct (c (aggregate s)). Qed.

Lemma keeps_flags_call {A} (c : M Instance (Promise A)) :
  keeps flags (let* pending := on_aggregate c in await pending).
Proof.
  apply keeps_bind; [apply keeps_flags_on_aggregate | intros p; apply keeps_await].
Qed.

Lemma assertWhen_keeps_flags colors fn async_ : keeps flags (assertWhen colors fn async_).
Proof.
  unfold assertWhen. apply keeps_async. apply keeps_bind; [apply keeps_gets|].
  intros fl. destruct (Array_includes fl "throws").
  - apply keeps_bind.
    + apply keeps_try_catch.
      * apply keeps_bind; [|intros _; apply keeps_ret].
        destruct async_; [apply keeps_flags_call|].
        apply keeps_bind; [apply keeps_flags_on_aggregate | intros _; apply keeps_ret].
      * intros t. apply keeps_bind; [apply keeps_gets|]. intros wm.
        apply keeps_bind; [|intros _; apply keeps_ret].
        destruct wm as [text|]; [|apply keeps_ret].
        apply keeps_when. now intros s.
    + intros didThrow. apply keeps_when. now intros s.
  - destruct async_; [apply keeps_flags_call|].
    apply keeps_bind; [apply keeps_flags_on_aggregate | intros _; apply keeps_ret].
Qed.

Lemma step_extends_flags colors JSON_stringify String_ contain members call (c : Check) :
  call <> CallAnd ->
  exists more,
    flags (snd (step colors JSON_stringify String_ contain members call c))
    = flags c ++ more.
Proof.
  intros Hand. destruct call; simpl.
  - now exists [flag].
  - now exists ["exactly"%string].
  - exists []. now rewrite app_nil_r.
  - exists []. rewrite app_nil_r. apply keeps_flags_on_aggregate.
  - exists []. rewrite app_nil_r. unfold when.
    apply (keeps_bind flags); [apply assertWhen_keeps_flags | intros _; apply keeps_ret].
  - exists []. rewrite app_nil_r.
    apply (keeps_bind flags); [|intros _; apply keeps_ret].
    unfold after. apply keeps_async, keeps_forEach. intros func.
    apply keeps_bind; [apply assertWhen_keeps_flags | intros p; apply keeps_await].
  - exists []. rewrite app_nil_r, events_runs.
    rewrite (proj1 (assertEvent_verdict colors JSON_stringify _)).
    unfold after_assertEvent. now destruct (armed "debug" _).
  - exists []. rewrite app_nil_r.
    now rewrite (includes_keeps colors String_ contain params c).
  - exists []. now rewrite app_nil_r.
  - congruence.
Qed.

(** X20. Flags are never disarmed within one chain: over any calls other
    than [and] (flag accessors, [exactly], [with], [loads], [when],
    [after], evaluations, [includes]), raising or not, the flags armed
    before are still armed after, in the same order, with the newly armed
    ones behind them; [and] alone answers a chain with none. *)
Theorem flags_stay_armed (colors : Colors) (JSON_stringify : Event -> string)
    (String_ : Value -> string) (contain : list Value -> list Value -> bool)
    (members : Members) (calls : list Step) (c : Check) :
  Forall (fun call => call <> CallAnd) calls ->
  (exists more,
     flags (chain colors JSON_stringify String_ contain members calls c)
     = flags c ++ more)
  /\ (forall flag, armed flag c = true ->
        armed flag (chain colors JSON_stringify String_ contain members calls c) = true)
  /\ flags (chain colors JSON_stringify String_ contain members (calls ++ [CallAnd]) c)
     = [].
Proof.
  intros Hcalls.
  assert (exists more,
            flags (chain colors JSON_stringify String_ contain members calls c)
            = flags c ++ more) as Hprefix.
  { revert c. induction Hcalls as [|call calls Hcall _ IH]; intros c.
    - exists []. simpl. now rewrite app_nil_r.
    - destruct (step_extends_flags colors JSON_stringify String_ contain members
                  call c Hcall) as [m1 E1].
      destruct (IH (snd (step colors JSON_stringify String_ contain members call c)))
        as [m2 E2].
      exists (m1 ++ m2).
      change (chain colors JSON_stringify String_ contain members (call :: calls) c)
        with (chain colors JSON_stringify String_ contain members calls
                (snd (step colors JSON_stringify String_ contain members call c))).
      rewrite E2, E1. now rewrite app_assoc. }
  split; [exact Hprefix|]. split.
  - intros flag. unfold armed, Array_includes. destruct Hprefix as [more ->].
    rewrite existsb_app. now intros ->.
  - unfold chain. rewrite fold_left_app. reflexivity.
Qed.

Lemma flags_stay_armed_witness :
  Forall (fun call => call <> CallAnd)
    [CallWhen (applyEvent plain_AggregateRoot (named "Created"));
     CallFlag "has"; CallFlag "one"; CallEvents (inl (mkEventClass "Updated"));
     CallFlag "has"; CallEvents (inl (mkEventClass "Created"))]
  /\ flags (chain plain stringify show contains_all plain_AggregateRoot
              [CallWhen (applyEvent plain_AggregateRoot (named "Created"));
               CallFlag "has"; CallFlag "one"; CallEvents (inl (mkEventClass "Updated"));
               CallFlag "has"; CallEvents (inl (mkEventClass "Created"))]
              (check (fresh "a1") []))
     = ["has"; "one"; "has"]%string
  /\ exists more,
       flags (chain plain stringify show contains_all plain_AggregateRoot
                [CallWhen (applyEvent plain_AggregateRoot (named "Created"));
                 CallFlag "has"; CallFlag "one"; CallEvents (inl (mkEventClass "Updated"));
                 CallFlag "has"; CallEvents (inl (mkEventClass "Created"))]
                (check (fresh "a1") []))
       = flags (check (fresh "a1") []) ++ more.
Proof.
  assert (Forall (fun call => call <> CallAnd)
            [CallWhen (applyEvent plain_AggregateRoot (named "Created"));
             CallFlag "has"; CallFlag "one"; CallEvents (inl (mkEventClass "Updated"));
             CallFlag "has"; CallEvents (inl (mkEventClass "Created"))]) as Hcalls
    by (repeat constructor; discriminate).
  split; [exact Hcalls|]. split; [reflexivity|].
  apply (flags_stay_armed plain stringify show contains_all plain_AggregateRoot _
           (check (fresh "a1") []) Hcalls).
Defined.
